(** * The portfolio backend of [backend/app.py]

    A shallow embedding of the Flask application: the documents it moves
    around, the five MongoDB collections it keeps, the sequence generator
    [get_next_id] and the route handlers, followed by the properties of the
    specification that were checked against them.

    Conventions of the embedding.
    - A Python [dict] is an association list in insertion order; a JSON or
      BSON value is a [value].  JSON numbers are integers here, and Python
      integers are unbounded ([Z]).
    - A handler is a computation over the [store]: it may change the
      collections, return a value, or raise; what was written before an
      exception stays written.
    - The document store is MongoDB as driven through pymongo.  Its
      operations are given the behaviour pymongo documents for the calls the
      source makes: [_id] is unique inside a collection, a missing [_id] is
      filled with a new ObjectId, [$inc] creates a missing field and rejects a
      non-numeric one.  Limits of the server (document size, 8-byte
      integers, key syntax) are outside the model. *)

From Stdlib Require Import ZArith NArith String Ascii List Bool Lia DecimalString.
From Stdlib Require Import Sorting.Sorted.
From Stdlib Require Strings.Byte.
From stdpp Require Import base list relations.
Import ListNotations.

Set Warnings "-register-all".

Open Scope string_scope.
Open Scope list_scope.
Open Scope Z_scope.

(** ** Values and dictionaries *)

Inductive value : Type :=
| VNull
| VBool (b : bool)
| VInt (z : Z)
| VStr (s : string)
| VArr (l : list value)
| VDoc (d : list (string * value))
| VOid (n : N).

Definition document : Type := list (string * value).
Definition collection : Type := list document.

(** Structural equality of values, as the store compares [_id]s. *)
Fixpoint value_eqb (v w : value) {struct v} : bool :=
  match v, w with
  | VNull, VNull => true
  | VBool a, VBool b => Bool.eqb a b
  | VInt a, VInt b => Z.eqb a b
  | VStr a, VStr b => String.eqb a b
  | VArr l, VArr m =>
      (fix go (l m : list value) {struct l} : bool :=
         match l, m with
         | [], [] => true
         | x :: l', y :: m' => value_eqb x y && go l' m'
         | _, _ => false
         end) l m
  | VDoc d, VDoc e =>
      (fix go (d e : list (string * value)) {struct d} : bool :=
         match d, e with
         | [], [] => true
         | (k, x) :: d', (k', y) :: e' =>
             String.eqb k k' && value_eqb x y && go d' e'
         | _, _ => false
         end) d e
  | VOid a, VOid b => N.eqb a b
  | _, _ => false
  end.

(** [d.get(k)] *)
Fixpoint dict_get (d : document) (k : string) : option value :=
  match d with
  | [] => None
  | (k', v) :: d' => if String.eqb k' k then Some v else dict_get d' k
  end.

(** [d.get(k, dflt)] *)
Definition dict_get_default (d : document) (k : string) (dflt : value) : value :=
  match dict_get d k with
  | Some v => v
  | None => dflt
  end.

(** [k in d] *)
Definition dict_mem (k : string) (d : document) : bool :=
  match dict_get d k with
  | Some _ => true
  | None => false
  end.

(** [d[k] = v]: an existing key keeps its place, a new key goes last. *)
Fixpoint dict_set (d : document) (k : string) (v : value) : document :=
  match d with
  | [] => [(k, v)]
  | (k', v') :: d' =>
      if String.eqb k' k then (k', v) :: d' else (k', v') :: dict_set d' k v
  end.

(** The dictionary without the key [k]. *)
Fixpoint dict_remove (k : string) (d : document) : document :=
  match d with
  | [] => []
  | (k', v) :: d' =>
      if String.eqb k' k then dict_remove k d' else (k', v) :: dict_remove k d'
  end.

(** Python truthiness, the test behind [not x] and [if x]. *)
Definition truthy (v : value) : bool :=
  match v with
  | VNull => false
  | VBool b => b
  | VInt z => negb (Z.eqb z 0)
  | VStr s => negb (String.eqb s "")
  | VArr l => match l with [] => false | _ => true end
  | VDoc d => match d with [] => false | _ => true end
  | VOid _ => true
  end.

(** ** Exceptions and results *)

Inductive exn : Type :=
| TypeError
| ValueError
| KeyError
| DuplicateKeyError
| WriteError.

Inductive result (A : Type) : Type :=
| Ok (a : A)
| Raise (e : exn).
Arguments Ok {A} a.
Arguments Raise {A} e.

(** ** [int(x)]

    On a string, [int] skips the blanks of ASCII around the number (tab to
    carriage return, and space), then reads a sign and decimal digits with
    single underscores between them.  The string is taken as ASCII: the
    decimal digits of other scripts, which [int] reads too, are not. *)

Definition is_space (a : ascii) : bool :=
  let n := nat_of_ascii a in
  ((9 <=? n)%nat && (n <=? 13)%nat) || (n =? 32)%nat.

Definition digit_of (a : ascii) : option Z :=
  let n := Z.of_nat (nat_of_ascii a) in
  if (48 <=? n) && (n <=? 57) then Some (n - 48) else None.

Fixpoint lstrip (l : list ascii) : list ascii :=
  match l with
  | a :: l' => if is_space a then lstrip l' else l
  | [] => []
  end.

Definition strip (l : list ascii) : list ascii :=
  List.rev (lstrip (List.rev (lstrip l))).

(** Decimal digits, single underscores allowed between two digits. *)
Fixpoint digits_value (acc : Z) (after_digit : bool) (l : list ascii) : option Z :=
  match l with
  | [] => if after_digit then Some acc else None
  | a :: l' =>
      match digit_of a with
      | Some d => digits_value (10 * acc + d) true l'
      | None =>
          if Ascii.eqb a "_"%char && after_digit
          then digits_value acc false l'
          else None
      end
  end.

Definition int_of_str (s : string) : option Z :=
  match strip (list_ascii_of_string s) with
  | a :: l =>
      if Ascii.eqb a "-"%char then option_map Z.opp (digits_value 0 false l)
      else if Ascii.eqb a "+"%char then digits_value 0 false l
      else digits_value 0 false (a :: l)
  | [] => None
  end.

Definition py_int (v : value) : result Z :=
  match v with
  | VInt z => Ok z
  | VBool b => Ok (if b then 1 else 0)
  | VStr s => match int_of_str s with Some z => Ok z | None => Raise ValueError end
  | VNull | VArr _ | VDoc _ | VOid _ => Raise TypeError
  end.

(** ** The store and its monad *)

Record store : Type := mkStore {
  projects_collection : collection;
  clients_collection : collection;
  contacts_collection : collection;
  subscribers_collection : collection;
  counter_collection : collection
}.

Definition empty_store : store := mkStore [] [] [] [] [].

Inductive handle : Type := Projects | Clients | Contacts | Subscribers | Counters.

Definition get_coll (h : handle) (s : store) : collection :=
  match h with
  | Projects => projects_collection s
  | Clients => clients_collection s
  | Contacts => contacts_collection s
  | Subscribers => subscribers_collection s
  | Counters => counter_collection s
  end.

Definition set_coll (h : handle) (c : collection) (s : store) : store :=
  match h with
  | Projects =>
      mkStore c (clients_collection s) (contacts_collection s)
        (subscribers_collection s) (counter_collection s)
  | Clients =>
      mkStore (projects_collection s) c (contacts_collection s)
        (subscribers_collection s) (counter_collection s)
  | Contacts =>
      mkStore (projects_collection s) (clients_collection s) c
        (subscribers_collection s) (counter_collection s)
  | Subscribers =>
      mkStore (projects_collection s) (clients_collection s)
        (contacts_collection s) c (counter_collection s)
  | Counters =>
      mkStore (projects_collection s) (clients_collection s)
        (contacts_collection s) (subscribers_collection s) c
  end.

(** A computation reads and writes the store and returns or raises. *)
Definition M (A : Type) : Type := store -> result A * store.

Definition ret {A} (a : A) : M A := fun s => (Ok a, s).
Definition raise {A} (e : exn) : M A := fun s => (Raise e, s).

Definition bind {A B} (m : M A) (k : A -> M B) : M B :=
  fun s =>
    match m s with
    | (Ok a, s') => k a s'
    | (Raise e, s') => (Raise e, s')
    end.

(** [try: m  except Exception as e: h e] *)
Definition try_except {A} (m : M A) (h : exn -> M A) : M A :=
  fun s =>
    match m s with
    | (Ok a, s') => (Ok a, s')
    | (Raise e, s') => h e s'
    end.

Notation "x <- m ;; k" := (bind m (fun x => k))
  (at level 100, m at next level, right associativity).
(** A store operation on one collection; a failed operation writes nothing. *)
Definition on {A} (h : handle) (op : collection -> result (A * collection)) : M A :=
  fun s =>
    match op (get_coll h s) with
    | Ok (a, c') => (Ok a, set_coll h c' s)
    | Raise e => (Raise e, s)
    end.

(** ** The document store

    The pymongo calls of the source, on one collection. *)

(** [collection.find({}, {'_id': 0})]: every document, in stored order,
    without its [_id] field. *)
Definition find_all_no_id (c : collection) : list document :=
  map (dict_remove "_id") c.

(** The ObjectIds already used as [_id] in a collection, and a new one. *)
Definition oid_of (d : document) : N :=
  match dict_get d "_id" with
  | Some (VOid n) => n
  | _ => 0%N
  end.

Definition fresh_oid (c : collection) : N :=
  N.succ (fold_right N.max 0%N (map oid_of c)).

Definition has_id (id : value) (d : document) : bool :=
  match dict_get d "_id" with
  | Some v => value_eqb id v
  | None => false
  end.

(** The BSON form of a document puts [_id] first. *)
Definition bson_order (d : document) : document :=
  match dict_get d "_id" with
  | Some id => ("_id", id) :: dict_remove "_id" d
  | None => d
  end.

(** [collection.insert_one(v)].  The driver accepts a dictionary only, adds
    an ObjectId under [_id] to a dictionary that has none (the caller's
    dictionary is changed too), and the server refuses an array as [_id]
    and an [_id] that the collection already holds.  Returns the caller's
    dictionary after the call and [result.inserted_id].

    The real call raises in more cases than this one: the encoder refuses
    an integer outside 8 bytes and a NUL in a key, and the server a
    document over its size limit.  These are not modelled: the store here
    takes every dictionary that passes the checks above, and a property
    that depends on the store taking a document is a property of the
    requests whose document the store takes.  A refusal, whatever its
    cause, is the [Raise] branch of the callers. *)
Definition insert_one (v : value) (c : collection)
  : result ((document * value) * collection) :=
  match v with
  | VDoc d =>
      let id :=
        match dict_get d "_id" with
        | Some id => id
        | None => VOid (fresh_oid c)
        end in
      let d' := dict_set d "_id" id in
      match id with
      | VArr _ => Raise WriteError
      | _ =>
          if List.existsb (has_id id) c then Raise DuplicateKeyError
          else Ok ((d', id), c ++ [bson_order d'])
      end
  | _ => Raise TypeError
  end.

(** [{'$inc': {field: 1}}] on one document. *)
Definition apply_inc (field : string) (d : document) : result document :=
  match dict_get d field with
  | None => Ok (dict_set d field (VInt 1))
  | Some (VInt z) => Ok (dict_set d field (VInt (z + 1)))
  | Some _ => Raise WriteError
  end.

(** [find_one_and_update({'_id': name}, {'$inc': {'sequence_value': 1}},
    return_document=ReturnDocument.AFTER, upsert=True)]: one operation of
    the server that increments the first document whose [_id] is [name],
    or inserts [{_id: name, sequence_value: 1}] when there is none, and
    returns the document as it is afterwards. *)
Fixpoint mongo_find_one_and_update (name : string) (c : collection)
  : result (option document * collection) :=
  match c with
  | [] =>
      let d := [("_id", VStr name); ("sequence_value", VInt 1)] in
      Ok (Some d, [d])
  | d :: c' =>
      if has_id (VStr name) d then
        match apply_inc "sequence_value" d with
        | Ok d' => Ok (Some d', d' :: c')
        | Raise e => Raise e
        end
      else
        match mongo_find_one_and_update name c' with
        | Ok (r, c'') => Ok (r, d :: c'')
        | Raise e => Raise e
        end
  end.

(** [update_one({'_id': name}, {'$set': {'sequence_value': v}}, upsert=True)] *)
Fixpoint update_one (name : string) (v : value) (c : collection)
  : result (unit * collection) :=
  match c with
  | [] => Ok (tt, [[("_id", VStr name); ("sequence_value", v)]])
  | d :: c' =>
      if has_id (VStr name) d then Ok (tt, dict_set d "sequence_value" v :: c')
      else
        match update_one name v c' with
        | Ok (u, c'') => Ok (u, d :: c'')
        | Raise e => Raise e
        end
  end.

(** The counter document of a sequence, and its current value ([0] while
    nothing was issued). *)
Definition find_counter (name : string) (c : collection) : option document :=
  List.find (has_id (VStr name)) c.

Definition sequence_value (name : string) (c : collection) : Z :=
  match find_counter name c with
  | Some d =>
      match dict_get d "sequence_value" with
      | Some (VInt z) => z
      | _ => 0
      end
  | None => 0
  end.

(** ** The sequence generator *)

Section SequenceGenerator.

(** The atomic find-and-modify of the store.  [get_next_id] is written
    against it so that the branch for a store that reports no document
    can be stated; [mongo_find_one_and_update] is the store of the
    application. *)
Variable find_one_and_update :
  string -> collection -> result (option document * collection).

(** [not counter] for the result of [find_one_and_update]. *)
Definition no_counter (counter : option document) : bool :=
  match counter with
  | None => true
  | Some d => negb (truthy (VDoc d))
  end.

Definition counter_get (counter : option document) : value :=
  match counter with
  | Some d => dict_get_default d "sequence_value" (VInt 1)
  | None => VInt 1
  end.

Definition get_next_id (collection_name : string) : M Z :=
  counter <- on Counters (find_one_and_update collection_name) ;;
  if no_counter counter then
    _ <- on Counters (update_one collection_name (VInt 1)) ;;
    ret 1
  else
    fun s => (py_int (counter_get counter), s).

(** *** Concurrent callers

    Each store operation is atomic; a caller of [get_next_id] is between
    two of them.  [thread_step] runs the next operation of one caller. *)
Inductive thread : Type :=
| Ready (collection_name : string)
| Fallback (collection_name : string)
| Returned (v : Z)
| Raised (e : exn).

Definition thread_step (t : thread) (s : store) : thread * store :=
  match t with
  | Ready name =>
      match on Counters (find_one_and_update name) s with
      | (Ok counter, s') =>
          if no_counter counter then (Fallback name, s')
          else
            match py_int (counter_get counter) with
            | Ok v => (Returned v, s')
            | Raise e => (Raised e, s')
            end
      | (Raise e, s') => (Raised e, s')
      end
  | Fallback name =>
      match on Counters (update_one name (VInt 1)) s with
      | (Ok _, s') => (Returned 1, s')
      | (Raise e, s') => (Raised e, s')
      end
  | Returned _ | Raised _ => (t, s)
  end.

Definition finished (t : thread) : bool :=
  match t with
  | Ready _ | Fallback _ => false
  | Returned _ | Raised _ => true
  end.

(** One step of a pool of callers sharing the store: some caller that has
    not finished runs its next store operation. *)
Inductive pool_step : store * list thread -> store * list thread -> Prop :=
| pool_step_at (s : store) (ts : list thread) (i : nat) (t : thread) :
    ts !! i = Some t ->
    finished t = false ->
    pool_step (s, ts)
      (snd (thread_step t s), <[i := fst (thread_step t s)]> ts).

Definition thread_result (t : thread) : option (result Z) :=
  match t with
  | Returned v => Some (Ok v)
  | Raised e => Some (Raise e)
  | Ready _ | Fallback _ => None
  end.

(** The values handed out so far to the callers of a pool. *)
Definition returned (ts : list thread) : list Z :=
  omap (fun t => match t with Returned v => Some v | _ => None end) ts.

End SequenceGenerator.

(** A store whose find-and-modify reports no document and writes nothing. *)
Definition silent_find_one_and_update (name : string) (c : collection)
  : result (option document * collection) :=
  Ok (None, c).

(** ** Requests and responses *)

(** An uploaded file part (werkzeug's [FileStorage]). *)
Record FileStorage : Type := mkFile {
  filename : string;
  content_type : option string;
  stream : list Byte.byte
}.

(** What the handlers read of a request: [request.json], [request.files]
    and [request.form]; the last two may hold a key more than once.  [json]
    is the value [request.json] yields, [VNull] for a body that is JSON
    [null]; a request for which [request.json] itself raises (a body that
    is not declared or not readable as JSON) is answered by the framework
    before the handler looks at it, and is no [request] here. *)
Record request : Type := mkRequest {
  json : value;
  files : list (string * FileStorage);
  form : list (string * string)
}.

Record response : Type := mkResponse {
  body : value;
  status : Z
}.

(** [key in request.files] *)
Definition multi_mem {A} (key : string) (m : list (string * A)) : bool :=
  List.existsb (fun kv => String.eqb (fst kv) key) m.

(** [request.form.get(key)]: the first value of the key, or [None]. *)
Fixpoint multi_get {A} (key : string) (m : list (string * A)) : option A :=
  match m with
  | [] => None
  | (k, v) :: m' => if String.eqb k key then Some v else multi_get key m'
  end.

(** [request.files[key]] *)
Definition multi_getitem {A} (key : string) (m : list (string * A)) : M A :=
  match multi_get key m with
  | Some v => ret v
  | None => raise KeyError
  end.

(** [bool(file)] is [bool(file.filename)]. *)
Definition file_truthy (f : FileStorage) : bool :=
  negb (String.eqb (filename f) "").

(** Truthiness and JSON form of an optional form field. *)
Definition field_truthy (o : option string) : bool :=
  match o with
  | Some s => negb (String.eqb s "")
  | None => false
  end.

Definition field_value (o : option string) : value :=
  match o with
  | Some s => VStr s
  | None => VNull
  end.

(** [f"{x}"] for [file.content_type]. *)
Definition format_opt (o : option string) : string :=
  match o with
  | Some s => s
  | None => "None"
  end.

(** [needle in v] *)
Fixpoint is_substring (p s : string) : bool :=
  if String.prefix p s then true
  else
    match s with
    | EmptyString => false
    | String _ s' => is_substring p s'
    end.

Definition contains (needle : string) (v : value) : result bool :=
  match v with
  | VDoc d => Ok (dict_mem needle d)
  | VArr l => Ok (List.existsb (value_eqb (VStr needle)) l)
  | VStr s => Ok (is_substring needle s)
  | VNull | VBool _ | VInt _ | VOid _ => Raise TypeError
  end.

(** *** [base64.b64encode] *)

Definition b64_alphabet : string :=
  "ABCDEFGHIJKLMNOPQRSTUVWXYZabcdefghijklmnopqrstuvwxyz0123456789+/".

Definition b64_char (n : N) : ascii :=
  match String.get (N.to_nat n) b64_alphabet with
  | Some a => a
  | None => "="%char
  end.

Fixpoint b64encode (bs : list Byte.byte) : string :=
  match bs with
  | [] => ""
  | [x] =>
      let a := Byte.to_N x in
      String (b64_char (N.shiftr a 2))
        (String (b64_char (N.shiftl (N.land a 3) 4)) "==")
  | [x; y] =>
      let a := Byte.to_N x in
      let b := Byte.to_N y in
      String (b64_char (N.shiftr a 2))
        (String (b64_char (N.lor (N.shiftl (N.land a 3) 4) (N.shiftr b 4)))
           (String (b64_char (N.shiftl (N.land b 15) 2)) "="))
  | x :: y :: z :: rest =>
      let a := Byte.to_N x in
      let b := Byte.to_N y in
      let c := Byte.to_N z in
      String (b64_char (N.shiftr a 2))
        (String (b64_char (N.lor (N.shiftl (N.land a 3) 4) (N.shiftr b 4)))
           (String (b64_char (N.lor (N.shiftl (N.land b 15) 2) (N.shiftr c 6)))
              (String (b64_char (N.land c 63)) (b64encode rest))))
  end.

(** *** [str(x)] *)

Definition hex_char (n : N) : ascii :=
  match String.get (N.to_nat n) "0123456789abcdef" with
  | Some a => a
  | None => "0"%char
  end.

Fixpoint hex_digits (width : nat) (n : N) : string :=
  match width with
  | O => ""
  | S w => String.append (hex_digits w (n / 16)) (String (hex_char (n mod 16)) "")
  end.

(** [str(ObjectId)]: 24 hexadecimal digits. *)
Definition oid_str (n : N) : string := hex_digits 24 n.

Definition str_of_Z (z : Z) : string := NilZero.string_of_int (Z.to_int z).

Definition join (sep : string) (l : list string) : string :=
  match l with
  | [] => ""
  | x :: l' => fold_left (fun acc y => String.append acc (String.append sep y)) l' x
  end.

(** [repr(x)]; a quote inside a string is left as it is. *)
Fixpoint py_repr (v : value) : string :=
  match v with
  | VNull => "None"
  | VBool b => if b then "True" else "False"
  | VInt z => str_of_Z z
  | VStr s => String.append "'" (String.append s "'")
  | VArr l =>
      String.append "["
        (String.append
           (join ", "
              ((fix go (l : list value) : list string :=
                  match l with
                  | [] => []
                  | x :: l' => py_repr x :: go l'
                  end) l))
           "]")
  | VDoc d =>
      String.append "{"
        (String.append
           (join ", "
              ((fix go (d : list (string * value)) : list string :=
                  match d with
                  | [] => []
                  | (k, x) :: d' =>
                      String.append "'"
                        (String.append k (String.append "': " (py_repr x)))
                      :: go d'
                  end) d))
           "}")
  | VOid n => String.append "ObjectId('" (String.append (oid_str n) "')")
  end.

Definition py_str (v : value) : string :=
  match v with
  | VStr s => s
  | VOid n => oid_str n
  | _ => py_repr v
  end.

(** [str(e)]: the driver's message, shortened. *)
Definition exn_str (e : exn) : string :=
  match e with
  | TypeError => "TypeError"
  | ValueError => "ValueError"
  | KeyError => "KeyError"
  | DuplicateKeyError => "E11000 duplicate key error"
  | WriteError => "WriteError"
  end.

(** ** The route handlers

    A handler returns [Some] response, or [None] when the Python function
    reaches its end without a [return]. *)

Definition jsonify (d : document) : value := VDoc d.

Definition respond (d : document) (code : Z) : M (option response) :=
  ret (Some (mkResponse (jsonify d) code)).

(** [list(collection.find({}, {'_id': 0}))] *)
Definition find (h : handle) : M (list document) :=
  fun s => (Ok (find_all_no_id (get_coll h s)), s).

Definition listing (key : string) (h : handle) : M (option response) :=
  docs <- find h ;;
  respond [(key, VArr (map VDoc docs))] 200.

Definition get_projects : M (option response) := listing "projects" Projects.
Definition get_clients : M (option response) := listing "clients" Clients.
Definition get_all_contacts : M (option response) := listing "contacts" Contacts.
Definition get_all_subscribers : M (option response) :=
  listing "subscribers" Subscribers.

Definition submit_contact (req : request) : M (option response) :=
  let data := json req in
  if negb (truthy data) then
    respond [("error", VStr "No data provided")] 400
  else
    _ <- on Contacts (insert_one data) ;;
    respond [("message", VStr "Contact submitted")] 201.

Definition subscribe (req : request) : M (option response) :=
  let data := json req in
  if negb (truthy data) then
    respond [("error", VStr "Email is required")] 400
  else
    has_email <- (fun s => (contains "email" data, s)) ;;
    if negb has_email then
      respond [("error", VStr "Email is required")] 400
    else
      _ <- on Subscribers (insert_one data) ;;
      respond [("message", VStr "Subscribed")] 201.

Definition data_url (file : FileStorage) : string :=
  String.append "data:"
    (String.append (format_opt (content_type file))
       (String.append ";base64," (b64encode (stream file)))).

Definition add_project (req : request) : M (option response) :=
  try_except
    (if negb (multi_mem "image" (files req)) then
       respond [("error", VStr "No image uploaded")] 400
     else
       file <- multi_getitem "image" (files req) ;;
       let name := multi_get "name" (form req) in
       let description := multi_get "description" (form req) in
       if negb (field_truthy name) || negb (field_truthy description) then
         respond [("error", VStr "Name and description are required")] 400
       else if file_truthy file then
         let image_url := data_url file in
         project_id <- get_next_id mongo_find_one_and_update "projects" ;;
         let project_data :=
           [("id", VInt project_id);
            ("name", field_value name);
            ("description", field_value description);
            ("image_url", VStr image_url)] in
         result <- on Projects (insert_one (VDoc project_data)) ;;
         let project_data :=
           dict_set (fst result) "_id" (VStr (py_str (snd result))) in
         respond [("message", VStr "Project created");
                  ("data", VDoc project_data)] 201
       else ret None)
    (fun e => respond [("error", VStr (exn_str e))] 500).

Definition add_client (req : request) : M (option response) :=
  try_except
    (if negb (multi_mem "image" (files req)) then
       respond [("error", VStr "No image uploaded")] 400
     else
       file <- multi_getitem "image" (files req) ;;
       let name := multi_get "name" (form req) in
       let description := multi_get "description" (form req) in
       let designation := multi_get "designation" (form req) in
       if negb (field_truthy name) || negb (field_truthy description)
          || negb (field_truthy designation) then
         respond
           [("error", VStr "Name, description, and designation are required")]
           400
       else if file_truthy file then
         let image_url := data_url file in
         client_id <- get_next_id mongo_find_one_and_update "clients" ;;
         let client_data :=
           [("id", VInt client_id);
            ("name", field_value name);
            ("description", field_value description);
            ("designation", field_value designation);
            ("image_url", VStr image_url)] in
         result <- on Clients (insert_one (VDoc client_data)) ;;
         let client_data :=
           dict_set (fst result) "_id" (VStr (py_str (snd result))) in
         respond [("message", VStr "Client added");
                  ("data", VDoc client_data)] 201
       else ret None)
    (fun e => respond [("error", VStr (exn_str e))] 500).

(** ** Vocabulary of the properties *)

(** Every counter document holds an integer under [sequence_value], or no
    such field yet: the shape [get_next_id] creates and keeps. *)
Definition counter_ok (d : document) : bool :=
  match dict_get d "sequence_value" with
  | None | Some (VInt _) => true
  | Some _ => false
  end.

Definition counters_ok (s : store) : bool :=
  forallb counter_ok (counter_collection s).

(** The current value of a sequence in a store. *)
Definition current (name : string) (s : store) : Z :=
  sequence_value name (counter_collection s).

(** Successive calls of [get_next_id], one sequence name per call, with the
    log of what each call returned. *)
Fixpoint call_all (names : list string) : M (list (string * Z)) :=
  match names with
  | [] => ret []
  | name :: names' =>
      v <- get_next_id mongo_find_one_and_update name ;;
      log <- call_all names' ;;
      ret ((name, v) :: log)
  end.

Definition issued_to (name : string) (log : list (string * Z)) : list Z :=
  map snd (List.filter (fun p => String.eqb (fst p) name) log).

(** The status code a handler answered with, if it answered. *)
Definition status_of (r : result (option response) * store) : option Z :=
  match fst r with
  | Ok (Some resp) => Some (status resp)
  | Ok None | Raise _ => None
  end.

(** The store takes the [_id] a payload carries: none, or one that is not an
    array and not yet in the collection. *)
Definition id_accepted (d : document) (c : collection) : bool :=
  match dict_get d "_id" with
  | None => true
  | Some (VArr _) => false
  | Some id => negb (List.existsb (has_id id) c)
  end.

(** The integer a counter document holds ([0] without the field). *)
Definition field_int (d : document) : Z :=
  match dict_get d "sequence_value" with
  | Some (VInt z) => z
  | _ => 0
  end.

(** What one find-and-modify does to the counters: [d] is the document it
    returns and [c'] the collection afterwards. *)
Record incremented (name : string) (c : collection) (d : document)
  (c' : collection) : Prop := {
  inc_nonempty : d <> [];
  inc_field : dict_get d "sequence_value" = Some (VInt (sequence_value name c + 1));
  inc_found : find_counter name c' = Some d;
  inc_value : sequence_value name c' = sequence_value name c + 1;
  inc_others : forall other, other <> name ->
    sequence_value other c' = sequence_value other c;
  inc_ok : forallb counter_ok c' = true
}.

(** The invariant of a pool of [n] callers of [get_next_id name]: every
    caller is still to run or holds a value the counter has reached, and
    no value is held twice. *)
Definition pool_inv (name : string) (n : nat) (cfg : store * list thread) : Prop :=
  counters_ok (fst cfg) = true
  /\ length (snd cfg) = n
  /\ Forall (fun t => t = Ready name
                      \/ exists v, t = Returned v /\ v <= current name (fst cfg))
       (snd cfg)
  /\ NoDup (returned (snd cfg)).

(** The requests the application serves, and the store after a succession
    of them, starting from what the store holds at first. *)
Inductive call : Type :=
| GetProjects
| GetClients
| SubmitContact (req : request)
| Subscribe (req : request)
| AddProject (req : request)
| AddClient (req : request)
| GetAllContacts
| GetAllSubscribers.

Definition serve (c : call) : M (option response) :=
  match c with
  | GetProjects => get_projects
  | GetClients => get_clients
  | SubmitContact req => submit_contact req
  | Subscribe req => subscribe req
  | AddProject req => add_project req
  | AddClient req => add_client req
  | GetAllContacts => get_all_contacts
  | GetAllSubscribers => get_all_subscribers
  end.

Definition serve_all (cs : list call) (s : store) : store :=
  fold_left (fun s c => snd (serve c s)) cs s.

(** Entering [add_project] or [add_client] with the image part present. *)
Ltac enter_handler Hmem Hfile :=
  unfold add_project, add_client, try_except;
  rewrite Hmem; cbn [negb];
  unfold bind at 1; unfold multi_getitem; rewrite Hfile;
  unfold ret at 1; cbv beta iota.

(** The [id] fields of the documents of a collection, in stored order, and
    the ids [1 .. n] as they are stored. *)
Definition ids_of (c : collection) : list (option value) :=
  map (fun d => dict_get d "id") c.

Definition first_ids (n : nat) : list (option value) :=
  map (fun k => Some (VInt (Z.of_nat k))) (seq 1 n).

(** The documents of [h] carry the ids [1 .. n] in stored order, [n] being
    the current value of the sequence [name]. *)
Definition ids_in_step (name : string) (h : handle) (s : store) : Prop :=
  exists n : nat,
    current name s = Z.of_nat n /\ ids_of (get_coll h s) = first_ids n.

(** The ids of the documents of [h] are integers that increase strictly in
    stored order, from 1 at least to the current value of the sequence
    [name] at most. *)
Definition ids_increasing (name : string) (h : handle) (s : store) : Prop :=
  exists zs : list Z,
    ids_of (get_coll h s) = map (fun z => Some (VInt z)) zs
    /\ StronglySorted Z.lt zs
    /\ Forall (fun z => 1 <= z <= current name s) zs.

(** The status codes a succession of requests was answered with. *)
Fixpoint answers (cs : list call) (s : store) : list (option Z) :=
  match cs with
  | [] => []
  | c :: cs' => status_of (serve c s) :: answers cs' (snd (serve c s))
  end.

(** The characters [base64.b64encode] may produce. *)
Definition b64_symbol (a : ascii) : bool :=
  List.existsb (Ascii.eqb a) (list_ascii_of_string b64_alphabet)
  || Ascii.eqb a "="%char.

(** The record [add_project] builds for a request, given the id. *)
Definition project_record (id : Z) (name description : string)
    (file : FileStorage) : document :=
  [("id", VInt id); ("name", VStr name); ("description", VStr description);
   ("image_url", VStr (data_url file))].

(** The record [add_client] builds for a request, given the id. *)
Definition client_record (id : Z) (name description designation : string)
    (file : FileStorage) : document :=
  [("id", VInt id); ("name", VStr name); ("description", VStr description);
   ("designation", VStr designation); ("image_url", VStr (data_url file))].

(** The numbers below [n], for checks by enumeration. *)
Definition below (n : nat) : list N := map N.of_nat (seq 0 n).

(** The ids [base + 1 .. base + m]. *)
Definition ids_from (base : Z) (m : nat) : list Z :=
  map (fun k => base + Z.of_nat k) (seq 1 m).

(** The invariant of a pool of callers of [get_next_id name] started when
    the counter was at [base]: the values returned so far are, in some
    order, the ids after [base] up to the current value of the counter. *)
Definition pool_inv_ids (name : string) (base : Z) (cfg : store * list thread) : Prop :=
  counters_ok (fst cfg) = true
  /\ Forall (fun t => t = Ready name \/ exists v, t = Returned v) (snd cfg)
  /\ exists m : nat,
       current name (fst cfg) = base + Z.of_nat m
       /\ returned (snd cfg) ≡ₚ ids_from base m.

(** ** Checks of the embedding on concrete inputs *)

Definition bytes_of (s : string) : list Byte.byte := list_byte_of_string s.

Example b64encode_f : b64encode (bytes_of "f") = "Zg==".
Proof. reflexivity. Qed.

Example b64encode_fo : b64encode (bytes_of "fo") = "Zm8=".
Proof. reflexivity. Qed.

Example b64encode_foobar : b64encode (bytes_of "foobar") = "Zm9vYmFy".
Proof. reflexivity. Qed.

Example b64encode_high : b64encode [Byte.xff; Byte.xfe; Byte.xfd] = "//79".
Proof. reflexivity. Qed.

Example py_int_examples :
  py_int (VStr " -1_000 ") = Ok (-1000) /\ py_int (VStr "1__0") = Raise ValueError
  /\ py_int (VStr "") = Raise ValueError /\ py_int (VBool true) = Ok 1
  /\ py_int VNull = Raise TypeError.
Proof. repeat split; reflexivity. Qed.

Example oid_str_example : oid_str 255 = "0000000000000000000000ff".
Proof. reflexivity. Qed.

(** ** Dictionaries *)

Lemma dict_get_set_eq d k v : dict_get (dict_set d k v) k = Some v.
Proof.
  induction d as [|[k' v'] d IH]; simpl.
  - now rewrite String.eqb_refl.
  - destruct (String.eqb k' k) eqn:E; simpl; now rewrite E.
Qed.

Lemma dict_get_set_ne d k k' v :
  k <> k' -> dict_get (dict_set d k v) k' = dict_get d k'.
Proof.
  intros Hne. induction d as [|[k0 v0] d IH]; simpl.
  - apply String.eqb_neq in Hne. now rewrite Hne.
  - destruct (String.eqb k0 k) eqn:E; simpl.
    + apply String.eqb_eq in E. subst k0.
      apply String.eqb_neq in Hne. now rewrite Hne.
    + now rewrite IH.
Qed.

Lemma dict_get_remove_eq k d : dict_get (dict_remove k d) k = None.
Proof.
  induction d as [|[k' v] d IH]; simpl; [reflexivity|].
  destruct (String.eqb k' k) eqn:E; simpl; [assumption|]. now rewrite E.
Qed.

Lemma dict_get_remove_ne k k' d :
  k <> k' -> dict_get (dict_remove k d) k' = dict_get d k'.
Proof.
  intros Hne. induction d as [|[k0 v] d IH]; simpl; [reflexivity|].
  destruct (String.eqb k0 k) eqn:E; simpl.
  - apply String.eqb_eq in E. subst k0.
    apply String.eqb_neq in Hne. now rewrite Hne.
  - now rewrite IH.
Qed.

Lemma dict_remove_set k v d : dict_remove k (dict_set d k v) = dict_remove k d.
Proof.
  induction d as [|[k' v'] d IH]; simpl.
  - now rewrite String.eqb_refl.
  - destruct (String.eqb k' k) eqn:E; simpl; rewrite E; [reflexivity|].
    now rewrite IH.
Qed.

Lemma dict_remove_idem k d : dict_remove k (dict_remove k d) = dict_remove k d.
Proof.
  induction d as [|[k' v] d IH]; simpl; [reflexivity|].
  destruct (String.eqb k' k) eqn:E; simpl; [assumption|].
  rewrite E. now rewrite IH.
Qed.

Lemma dict_remove_absent k d : dict_get d k = None -> dict_remove k d = d.
Proof.
  induction d as [|[k' v] d IH]; simpl; [reflexivity|].
  destruct (String.eqb k' k) eqn:E; [discriminate|].
  intros H. now rewrite IH.
Qed.

Lemma dict_remove_bson_order d :
  dict_remove "_id" (bson_order d) = dict_remove "_id" d.
Proof.
  unfold bson_order. destruct (dict_get d "_id"); [|reflexivity].
  simpl. apply dict_remove_idem.
Qed.

(** ** Identifiers *)

Lemma value_eqb_str s v : value_eqb (VStr s) v = true <-> v = VStr s.
Proof.
  destruct v; simpl; try (split; [discriminate | intros H; discriminate H]).
  rewrite String.eqb_eq. split; [now intros -> | now intros [=]].
Qed.

Lemma value_eqb_oid n v : value_eqb (VOid n) v = true <-> v = VOid n.
Proof.
  destruct v; simpl; try (split; [discriminate | intros H; discriminate H]).
  rewrite N.eqb_eq. split; [now intros -> | now intros [=]].
Qed.

Lemma has_id_str name d :
  has_id (VStr name) d = true <-> dict_get d "_id" = Some (VStr name).
Proof.
  unfold has_id. destruct (dict_get d "_id") as [v|].
  - rewrite value_eqb_str. split; [now intros -> | now intros [=]].
  - split; discriminate.
Qed.

Lemma has_id_set_field id d v :
  has_id id (dict_set d "sequence_value" v) = has_id id d.
Proof. unfold has_id. now rewrite dict_get_set_ne. Qed.

Lemma has_id_other name other d :
  name <> other -> has_id (VStr name) d = true -> has_id (VStr other) d = false.
Proof.
  intros Hne H. apply has_id_str in H. unfold has_id. rewrite H. simpl.
  now apply String.eqb_neq.
Qed.

Lemma oid_le_max c d :
  In d c -> (oid_of d <= fold_right N.max 0%N (map oid_of c))%N.
Proof.
  induction c as [|d' c IH]; simpl; [contradiction|].
  intros [->|H]; [apply N.le_max_l|].
  etransitivity; [apply IH, H | apply N.le_max_r].
Qed.

Lemma fresh_oid_new c : List.existsb (has_id (VOid (fresh_oid c))) c = false.
Proof.
  destruct (List.existsb _ c) eqn:E; [|reflexivity].
  apply List.existsb_exists in E. destruct E as [d [Hin Hid]].
  unfold has_id in Hid. destruct (dict_get d "_id") as [v|] eqn:G; [|discriminate].
  apply value_eqb_oid in Hid. subst v.
  assert (Hd : oid_of d = fresh_oid c) by (unfold oid_of; now rewrite G).
  pose proof (oid_le_max c d Hin) as Hle. rewrite Hd in Hle.
  unfold fresh_oid in Hle. lia.
Qed.

(** ** The counters under the store's find-and-modify *)

Lemma sequence_value_cons name d c :
  sequence_value name (d :: c) =
  if has_id (VStr name) d then field_int d else sequence_value name c.
Proof.
  unfold sequence_value, find_counter, field_int. simpl.
  now destruct (has_id (VStr name) d).
Qed.

Lemma find_counter_cons name d c :
  find_counter name (d :: c) =
  if has_id (VStr name) d then Some d else find_counter name c.
Proof. reflexivity. Qed.

Lemma dict_set_nonempty d k v : dict_set d k v <> [].
Proof. destruct d as [|[k' v'] d]; simpl; [|destruct (String.eqb k' k)]; discriminate. Qed.

Lemma apply_inc_ok d :
  counter_ok d = true ->
  apply_inc "sequence_value" d =
  Ok (dict_set d "sequence_value" (VInt (field_int d + 1))).
Proof.
  unfold counter_ok, apply_inc, field_int.
  destruct (dict_get d "sequence_value") as [[]|]; try discriminate; reflexivity.
Qed.

Lemma mongo_find_one_and_update_spec name c :
  forallb counter_ok c = true ->
  exists d c',
    mongo_find_one_and_update name c = Ok (Some d, c')
    /\ incremented name c d c'.
Proof.
  induction c as [|d0 c IH]; intros Hok.
  - eexists _, _. split; [reflexivity|].
    split; try reflexivity; try discriminate.
    + unfold find_counter, has_id. simpl. now rewrite String.eqb_refl.
    + unfold sequence_value, find_counter, has_id. simpl.
      now rewrite String.eqb_refl.
    + intros other Hne. unfold sequence_value, find_counter, has_id. simpl.
      apply String.eqb_neq in Hne. now rewrite Hne.
  - simpl in Hok. apply andb_true_iff in Hok as [Hd Hc]. simpl.
    destruct (has_id (VStr name) d0) eqn:Hid.
    + rewrite (apply_inc_ok d0 Hd). eexists _, _. split; [reflexivity|].
      assert (Hid' : has_id (VStr name)
                (dict_set d0 "sequence_value" (VInt (field_int d0 + 1))) = true)
        by now rewrite has_id_set_field.
      split.
      * apply dict_set_nonempty.
      * rewrite dict_get_set_eq, sequence_value_cons, Hid. reflexivity.
      * rewrite find_counter_cons, Hid'. reflexivity.
      * rewrite !sequence_value_cons, Hid, Hid'. unfold field_int at 1.
        now rewrite dict_get_set_eq.
      * intros other Hne. rewrite !sequence_value_cons, has_id_set_field.
        rewrite (has_id_other name other d0); [reflexivity| congruence | assumption].
      * simpl. rewrite Hc, andb_true_r. unfold counter_ok.
        now rewrite dict_get_set_eq.
    + destruct (IH Hc) as (d & c' & Heq & Hinc). rewrite Heq.
      eexists _, _. split; [reflexivity|]. destruct Hinc. split.
      * assumption.
      * now rewrite sequence_value_cons, Hid.
      * now rewrite find_counter_cons, Hid.
      * now rewrite !sequence_value_cons, Hid.
      * intros other Hne. rewrite !sequence_value_cons.
        destruct (has_id (VStr other) d0); [reflexivity | now apply inc_others0].
      * simpl. now rewrite Hd.
Qed.

(** Without a counter for [name], the operation appends a new one at 1. *)
Lemma mongo_find_one_and_update_absent name c :
  find_counter name c = None ->
  mongo_find_one_and_update name c =
  let d := [("_id", VStr name); ("sequence_value", VInt 1)] in
  Ok (Some d, c ++ [d]).
Proof.
  induction c as [|d0 c IH]; [reflexivity|].
  rewrite find_counter_cons. simpl.
  destruct (has_id (VStr name) d0); [discriminate|].
  intros H. now rewrite (IH H).
Qed.

Lemma find_counter_app_new name c :
  find_counter name c = None ->
  find_counter name (c ++ [[("_id", VStr name); ("sequence_value", VInt 1)]])
  = Some [("_id", VStr name); ("sequence_value", VInt 1)].
Proof.
  induction c as [|d0 c IH].
  - intros _. unfold find_counter, has_id. simpl. now rewrite String.eqb_refl.
  - rewrite <- app_comm_cons, !find_counter_cons.
    destruct (has_id (VStr name) d0); [discriminate | exact IH].
Qed.

Lemma update_one_spec name v c :
  exists c',
    update_one name v c = Ok (tt, c')
    /\ (exists d, find_counter name c' = Some d
                  /\ dict_get d "sequence_value" = Some v)
    /\ forall other, other <> name ->
         sequence_value other c' = sequence_value other c.
Proof.
  induction c as [|d0 c IH].
  - eexists. split; [reflexivity|]. split.
    + eexists. split.
      * unfold find_counter, has_id. simpl. rewrite String.eqb_refl. reflexivity.
      * reflexivity.
    + intros other Hne. unfold sequence_value, find_counter, has_id. simpl.
      apply String.eqb_neq in Hne. now rewrite Hne.
  - simpl. destruct (has_id (VStr name) d0) eqn:Hid.
    + eexists. split; [reflexivity|]. split.
      * eexists. split.
        -- rewrite find_counter_cons, has_id_set_field, Hid. reflexivity.
        -- apply dict_get_set_eq.
      * intros other Hne. rewrite !sequence_value_cons, has_id_set_field.
        rewrite (has_id_other name other d0); [reflexivity| congruence | assumption].
    + destruct IH as (c' & Heq & (d & Hf & Hg) & Hoth). rewrite Heq.
      eexists. split; [reflexivity|]. split.
      * exists d. now rewrite find_counter_cons, Hid.
      * intros other Hne. rewrite !sequence_value_cons.
        destruct (has_id (VStr other) d0); [reflexivity | now apply Hoth].
Qed.

(** ** [get_next_id] on the store of the application *)

Lemma no_counter_nonempty (d : document) : d <> [] -> no_counter (Some d) = false.
Proof. destruct d; [congruence | reflexivity]. Qed.

Lemma get_next_id_mongo name s :
  counters_ok s = true ->
  exists d c',
    get_next_id mongo_find_one_and_update name s
    = (Ok (current name s + 1), set_coll Counters c' s)
    /\ thread_step mongo_find_one_and_update (Ready name) s
       = (Returned (current name s + 1), set_coll Counters c' s)
    /\ incremented name (counter_collection s) d c'.
Proof.
  intros Hok.
  destruct (mongo_find_one_and_update_spec name _ Hok) as (d & c' & Heq & Hinc).
  exists d, c'. unfold get_next_id, thread_step, bind, on. simpl get_coll.
  rewrite Heq. cbv beta iota.
  rewrite (no_counter_nonempty d (inc_nonempty _ _ _ _ Hinc)).
  unfold counter_get, dict_get_default.
  rewrite (inc_field _ _ _ _ Hinc). simpl. auto.
Qed.

(** [get_next_id] is the run of one caller on its own: at most two store
    operations, whatever the store answers. *)
Lemma get_next_id_thread fau name s :
  let '(t1, s1) := thread_step fau (Ready name) s in
  let '(t2, s2) := thread_step fau t1 s1 in
  thread_result t2 = Some (fst (get_next_id fau name s))
  /\ s2 = snd (get_next_id fau name s).
Proof.
  unfold get_next_id, thread_step, bind, on, ret. simpl get_coll.
  destruct (fau name (counter_collection s)) as [[counter c1]|e]; simpl.
  - destruct (no_counter counter).
    + simpl. destruct (update_one_spec name (VInt 1) c1) as (c2 & Heq & _).
      rewrite Heq. simpl. auto.
    + destruct (py_int (counter_get counter)); simpl; auto.
  - auto.
Qed.

(** C1. When the counters collection holds no document for a sequence name,
    [get_next_id] returns 1 for it, and the counter document
    [{_id: name, sequence_value: 1}] is in the collection after the single
    find-and-modify operation of the call: one step of the caller, with no
    second store operation. *)
Theorem first_call_returns_one (name : string) (s : store) :
  find_counter name (counter_collection s) = None ->
  let counter := [("_id", VStr name); ("sequence_value", VInt 1)] in
  let s' := set_coll Counters (counter_collection s ++ [counter]) s in
  get_next_id mongo_find_one_and_update name s = (Ok 1, s')
  /\ thread_step mongo_find_one_and_update (Ready name) s = (Returned 1, s')
  /\ find_counter name (counter_collection s') = Some counter
  /\ current name s' = 1.
Proof.
  intros Habsent counter s'.
  unfold get_next_id, thread_step, bind, on. simpl get_coll.
  rewrite (mongo_find_one_and_update_absent name _ Habsent). simpl.
  repeat split.
  - subst s' counter. simpl. now apply find_counter_app_new.
  - subst s' counter. unfold current, sequence_value. simpl.
    now rewrite (find_counter_app_new name _ Habsent).
Qed.

Lemma first_call_returns_one_witness :
  get_next_id mongo_find_one_and_update "projects" empty_store
  = (Ok 1,
     mkStore [] [] [] [] [[("_id", VStr "projects"); ("sequence_value", VInt 1)]]).
Proof.
  exact (proj1 (first_call_returns_one "projects" empty_store eq_refl)).
Defined.

(** ** Concurrent callers of one sequence *)

Lemma returned_insert (ts : list thread) i name v :
  ts !! i = Some (Ready name) ->
  returned (<[i := Returned v]> ts) ≡ₚ v :: returned ts.
Proof.
  intros Hi. pose proof (lookup_lt_Some _ _ _ Hi) as Hlt.
  rewrite insert_take_drop by assumption.
  rewrite <- (take_drop_middle ts i (Ready name) Hi) at 3.
  unfold returned. rewrite !omap_app. simpl.
  symmetry. apply Permutation_middle.
Qed.

Lemma returned_bound (P : Z -> Prop) name (ts : list thread) v :
  Forall (fun t => t = Ready name \/ exists w, t = Returned w /\ P w) ts ->
  v ∈ returned ts -> P v.
Proof.
  intros Hall Hin. unfold returned in Hin.
  apply list_elem_of_omap in Hin as (t & Ht & Hv).
  rewrite Forall_forall in Hall. destruct (Hall t Ht) as [->|(w & -> & Hw)].
  - discriminate.
  - now injection Hv as <-.
Qed.

Lemma pool_inv_step name n cfg cfg' :
  pool_inv name n cfg ->
  pool_step mongo_find_one_and_update cfg cfg' ->
  pool_inv name n cfg'.
Proof.
  intros (Hok & Hlen & Hall & Hnd) Hstep.
  destruct Hstep as [s ts i t Hi Hrun]. simpl in *.
  assert (Ht : t = Ready name).
  { rewrite Forall_forall in Hall.
    destruct (Hall t) as [->|(w & -> & _)];
      [eapply list_elem_of_lookup_2; eassumption | reflexivity | discriminate]. }
  subst t.
  destruct (get_next_id_mongo name s Hok) as (d & c' & _ & Hthread & Hinc).
  rewrite Hthread. unfold pool_inv. cbn [fst snd].
  assert (Hcur : current name (set_coll Counters c' s) = current name s + 1)
    by (unfold current; simpl; apply (inc_value _ _ _ _ Hinc)).
  split; [|split; [|split]].
  - unfold counters_ok. simpl. apply (inc_ok _ _ _ _ Hinc).
  - now rewrite length_insert.
  - apply Forall_insert.
    + eapply Forall_impl; [exact Hall|]. intros t [->|(w & -> & Hw)]; [now left|].
      right. exists w. split; [reflexivity | lia].
    + right. eexists. split; [reflexivity | lia].
  - rewrite (returned_insert ts i name _ Hi). apply NoDup_cons. split; [|assumption].
    intros Hin.
    pose proof (returned_bound (fun w => w <= current name s) name ts _ Hall Hin)
      as Hle.
    cbv beta in Hle. lia.
Qed.

Lemma pool_inv_steps name n cfg cfg' :
  rtc (pool_step mongo_find_one_and_update) cfg cfg' ->
  pool_inv name n cfg -> pool_inv name n cfg'.
Proof.
  induction 1 as [|cfg cfg1 cfg2 Hstep _ IH]; [auto|].
  intros Hinv. apply IH. eapply pool_inv_step; eassumption.
Qed.

Lemma pool_inv_init name n s :
  counters_ok s = true -> pool_inv name n (s, replicate n (Ready name)).
Proof.
  intros Hok. repeat split; simpl.
  - assumption.
  - apply length_replicate.
  - apply Forall_replicate. now left.
  - induction n; simpl; [constructor | assumption].
Qed.

Lemma returned_all_finished name (P : Z -> Prop) (ts : list thread) :
  Forall (fun t => t = Ready name \/ exists w, t = Returned w /\ P w) ts ->
  forallb finished ts = true ->
  length (returned ts) = length ts.
Proof.
  induction 1 as [|t ts [->|(w & -> & _)] _ IH]; simpl.
  - reflexivity.
  - discriminate.
  - intros Hfin. now rewrite IH.
Qed.

(** Every caller that has not returned can take its step, and the callers
    can all be run to the end: the values of C2 exist. *)
Lemma pool_run_complete name k (vs : list Z) s :
  counters_ok s = true ->
  exists s' vs',
    rtc (pool_step mongo_find_one_and_update)
      (s, map Returned vs ++ replicate k (Ready name))
      (s', map Returned (vs ++ vs'))
    /\ length vs' = k.
Proof.
  revert vs s. induction k as [|k IH]; intros vs s Hok.
  - exists s, []. simpl. rewrite !app_nil_r. split; [apply rtc_refl | reflexivity].
  - destruct (get_next_id_mongo name s Hok) as (d & c' & _ & Hthread & Hinc).
    set (v := current name s + 1) in *. set (s1 := set_coll Counters c' s) in *.
    assert (Hok1 : counters_ok s1 = true)
      by (unfold counters_ok; simpl; apply (inc_ok _ _ _ _ Hinc)).
    destruct (IH (vs ++ [v]) s1 Hok1) as (s' & vs' & Hrun & Hlen).
    exists s', (v :: vs'). split; [|simpl; now rewrite Hlen].
    replace (vs ++ v :: vs') with ((vs ++ [v]) ++ vs')
      by now rewrite <- app_assoc.
    eapply rtc_l; [|exact Hrun].
    assert (Hi : (map Returned vs ++ replicate (S k) (Ready name))
                   !! length (map Returned vs) = Some (Ready name))
      by now apply list_lookup_middle.
    pose proof (pool_step_at mongo_find_one_and_update s _ _ _ Hi eq_refl) as Hstep.
    rewrite Hthread in Hstep. simpl in Hstep.
    rewrite insert_app_r_alt, Nat.sub_diag in Hstep by lia.
    simpl in Hstep. rewrite map_app, <- app_assoc. exact Hstep.
Qed.

(** C2. [n] callers of [get_next_id] for one sequence name share the store
    and run concurrently, the store running their find-and-modify operations
    one at a time in any order.  At every point of every such run no value
    has been returned twice; every caller is on the atomic path (none is in
    the fallback, none has raised); and once all have finished there are
    [n] returned values, pairwise distinct. *)
Theorem concurrent_ids_distinct (name : string) (n : nat) (s0 s : store)
    (ts : list thread) :
  counters_ok s0 = true ->
  rtc (pool_step mongo_find_one_and_update) (s0, replicate n (Ready name)) (s, ts) ->
  NoDup (returned ts)
  /\ Forall (fun t => t = Ready name \/ exists v, t = Returned v) ts
  /\ (forallb finished ts = true -> length (returned ts) = n).
Proof.
  intros Hok Hrun.
  destruct (pool_inv_steps name n _ _ Hrun (pool_inv_init name n s0 Hok))
    as (_ & Hlen & Hall & Hnd).
  simpl in *. split; [assumption|]. split.
  - eapply Forall_impl; [exact Hall|].
    intros t [->|(v & -> & _)]; eauto.
  - intros Hfin. rewrite <- Hlen.
    exact (returned_all_finished name (fun w => w <= current name s) ts Hall Hfin).
Qed.

Lemma concurrent_ids_distinct_witness :
  NoDup (returned [Returned 2; Returned 1])
  /\ length (returned [Returned 2; Returned 1]) = 2%nat.
Proof.
  assert (Hrun : rtc (pool_step mongo_find_one_and_update)
            (empty_store, replicate 2 (Ready "projects"))
            (mkStore [] [] [] [] [[("_id", VStr "projects"); ("sequence_value", VInt 2)]],
             [Returned 2; Returned 1])).
  { eapply rtc_l.
    - exact (pool_step_at mongo_find_one_and_update empty_store
               (replicate 2 (Ready "projects")) 1 (Ready "projects") eq_refl eq_refl).
    - eapply rtc_l.
      + exact (pool_step_at mongo_find_one_and_update
                 (mkStore [] [] [] []
                    [[("_id", VStr "projects"); ("sequence_value", VInt 1)]])
                 [Ready "projects"; Returned 1] 0 (Ready "projects")
                 eq_refl eq_refl).
      + apply rtc_refl. }
  destruct (concurrent_ids_distinct "projects" 2 empty_store _ _ eq_refl Hrun)
    as (Hnd & _ & Hlen).
  split; [exact Hnd | exact (Hlen eq_refl)].
Defined.

(** ** Successive calls *)

Lemma get_next_id_call name s :
  counters_ok s = true ->
  exists s',
    get_next_id mongo_find_one_and_update name s = (Ok (current name s + 1), s')
    /\ counters_ok s' = true
    /\ current name s' = current name s + 1
    /\ (forall other, other <> name -> current other s' = current other s)
    /\ find_counter name (counter_collection s') <> None
    /\ (forall h, h <> Counters -> get_coll h s' = get_coll h s).
Proof.
  intros Hok.
  destruct (get_next_id_mongo name s Hok) as (d & c' & Hcall & _ & Hinc).
  exists (set_coll Counters c' s). destruct Hinc. unfold current, counters_ok.
  simpl. repeat split; try assumption.
  - congruence.
  - now intros [] H.
Qed.

Lemma issued_to_cons name name0 v log :
  issued_to name ((name0, v) :: log) =
  if String.eqb name0 name then v :: issued_to name log else issued_to name log.
Proof. unfold issued_to. simpl. now destruct (String.eqb name0 name). Qed.

(** C3. Over any succession of [get_next_id] calls, for every sequence name
    the [sequence_value] of its counter never decreases, it advances by
    exactly the number of values handed out for that name, the values handed
    out for that name are strictly increasing in call order, and each lies
    above the value the counter had before and at or below the value it has
    after: no value is handed out twice. *)
Theorem successive_ids_increase (names : list string) (s : store) :
  counters_ok s = true ->
  exists log s',
    call_all names s = (Ok log, s')
    /\ map fst log = names
    /\ counters_ok s' = true
    /\ forall name,
         current name s <= current name s'
         /\ current name s' = current name s + Z.of_nat (length (issued_to name log))
         /\ StronglySorted Z.lt (issued_to name log)
         /\ Forall (fun v => current name s < v <= current name s')
              (issued_to name log).
Proof.
  revert s. induction names as [|name0 names IH]; intros s Hok.
  - exists [], s. simpl. repeat split; try assumption; try lia; constructor.
  - destruct (get_next_id_call name0 s Hok)
      as (s1 & Hcall & Hok1 & Hcur & Hoth & _ & _).
    destruct (IH s1 Hok1) as (log & s' & Hrest & Hfst & Hok' & Hall).
    exists ((name0, current name0 s + 1) :: log), s'.
    simpl. unfold bind at 1. rewrite Hcall. unfold bind at 1. rewrite Hrest.
    split; [reflexivity|]. split; [simpl; now rewrite Hfst|].
    split; [assumption|]. intros name.
    destruct (Hall name) as (Hle & Hlen & Hsorted & Hbound).
    rewrite issued_to_cons. destruct (String.eqb name0 name) eqn:E.
    + apply String.eqb_eq in E. subst name0. rewrite Hcur in *.
      simpl length. repeat split; try lia.
      * constructor; [assumption|].
        eapply Forall_impl; [exact Hbound|]. simpl. intros; lia.
      * constructor; [lia|].
        eapply Forall_impl; [exact Hbound|]. simpl. intros; lia.
    + apply String.eqb_neq in E. rewrite (Hoth name) in * by congruence.
      repeat split; assumption.
Qed.

Lemma successive_ids_increase_witness :
  exists log s',
    call_all ["projects"; "clients"; "projects"] empty_store = (Ok log, s')
    /\ StronglySorted Z.lt (issued_to "projects" log).
Proof.
  destruct (successive_ids_increase ["projects"; "clients"; "projects"]
              empty_store eq_refl) as (log & s' & Hrun & _ & _ & Hall).
  exists log, s'. split; [exact Hrun|].
  exact (proj1 (proj2 (proj2 (Hall "projects")))).
Defined.

(** C4. When the find-and-modify of the store reports no document,
    [get_next_id] sets [sequence_value] to 1 by an upserting [update_one]
    and returns 1.  On the store of the application, whose counters hold
    integers, [get_next_id] returns a value for every sequence name, known
    or not, and the counter of that name exists afterwards. *)
Theorem fallback_and_no_error :
  (forall fau name s c1,
     fau name (counter_collection s) = Ok (None, c1) ->
     exists c2,
       get_next_id fau name s = (Ok 1, set_coll Counters c2 s)
       /\ update_one name (VInt 1) c1 = Ok (tt, c2)
       /\ sequence_value name c2 = 1)
  /\ (forall name s,
        counters_ok s = true ->
        exists v s',
          get_next_id mongo_find_one_and_update name s = (Ok v, s')
          /\ find_counter name (counter_collection s') <> None).
Proof.
  split.
  - intros fau name s c1 Hnone.
    destruct (update_one_spec name (VInt 1) c1) as (c2 & Hupd & (d & Hf & Hg) & _).
    exists c2. unfold get_next_id, bind, on. simpl get_coll. rewrite Hnone.
    simpl. rewrite Hupd. repeat split.
    unfold sequence_value. now rewrite Hf, Hg.
  - intros name s Hok.
    destruct (get_next_id_call name s Hok) as (s' & Hcall & _ & _ & _ & Hfound & _).
    eauto.
Qed.

Lemma fallback_and_no_error_witness :
  (exists c2,
     get_next_id silent_find_one_and_update "projects" empty_store
     = (Ok 1, set_coll Counters c2 empty_store)
     /\ update_one "projects" (VInt 1) [] = Ok (tt, c2)
     /\ sequence_value "projects" c2 = 1)
  /\ (exists v s',
        get_next_id mongo_find_one_and_update "clients" empty_store = (Ok v, s')
        /\ find_counter "clients" (counter_collection s') <> None).
Proof.
  split.
  - exact (proj1 fallback_and_no_error silent_find_one_and_update "projects"
             empty_store [] eq_refl).
  - exact (proj2 fallback_and_no_error "clients" empty_store eq_refl).
Defined.

(** ** Inserting documents *)

Lemma insert_one_accepted (d : document) (c : collection) :
  id_accepted d c = true ->
  exists id,
    insert_one (VDoc d) c
    = Ok ((dict_set d "_id" id, id), c ++ [bson_order (dict_set d "_id" id)])
    /\ (dict_get d "_id" = None -> id = VOid (fresh_oid c))
    /\ (forall v, dict_get d "_id" = Some v -> id = v).
Proof.
  unfold id_accepted, insert_one.
  destruct (dict_get d "_id") as [id|] eqn:G.
  - intros Hacc. exists id.
    destruct id; try discriminate;
      apply negb_true_iff in Hacc; rewrite Hacc;
      (split; [reflexivity | split; [discriminate | now intros v [= <-]]]).
  - intros _. exists (VOid (fresh_oid c)). rewrite fresh_oid_new.
    split; [reflexivity | split; [reflexivity | discriminate]].
Qed.

Lemma insert_one_refused (d : document) (c : collection) :
  id_accepted d c = false -> exists e, insert_one (VDoc d) c = Raise e.
Proof.
  unfold id_accepted, insert_one.
  destruct (dict_get d "_id") as [id|]; [|discriminate].
  intros Hacc. destruct id; try (eexists; reflexivity);
    apply negb_false_iff in Hacc; rewrite Hacc; eexists; reflexivity.
Qed.

Lemma find_all_no_id_insert (d : document) (id : value) (c : collection) :
  find_all_no_id (c ++ [bson_order (dict_set d "_id" id)])
  = find_all_no_id c ++ [dict_remove "_id" d].
Proof.
  unfold find_all_no_id. rewrite map_app. simpl.
  now rewrite dict_remove_bson_order, dict_remove_set.
Qed.

Lemma get_set_coll_other h h' c s :
  h' <> h -> get_coll h' (set_coll h c s) = get_coll h' s.
Proof. destruct h, h'; intros H; try reflexivity; congruence. Qed.

Lemma get_set_coll_same h c s : get_coll h (set_coll h c s) = c.
Proof. now destruct h. Qed.

(** Storing a payload through [insert_one] and answering afterwards. *)
Lemma store_and_respond h (d : document) msg code s :
  id_accepted d (get_coll h s) = true ->
  exists s',
    (_ <- on h (insert_one (VDoc d)) ;; respond msg code) s
    = (Ok (Some (mkResponse (jsonify msg) code)), s')
    /\ find_all_no_id (get_coll h s')
       = find_all_no_id (get_coll h s) ++ [dict_remove "_id" d]
    /\ forall h', h' <> h -> get_coll h' s' = get_coll h' s.
Proof.
  intros Hacc. destruct (insert_one_accepted d _ Hacc) as (id & Hins & _).
  eexists. unfold bind, on, respond, ret. rewrite Hins. split; [reflexivity|].
  split.
  - rewrite get_set_coll_same. apply find_all_no_id_insert.
  - intros h' Hne. now apply get_set_coll_other.
Qed.


Lemma insert_one_ok_inv (v : value) (c c' : collection) (r : document * value) :
  insert_one v c = Ok (r, c') ->
  exists d id,
    v = VDoc d
    /\ id_accepted d c = true
    /\ r = (dict_set d "_id" id, id)
    /\ c' = c ++ [bson_order (dict_set d "_id" id)]
    /\ (dict_get d "_id" = None -> id = VOid (fresh_oid c))
    /\ (forall w, dict_get d "_id" = Some w -> id = w).
Proof.
  intros Hins. destruct v as [| | | | |d|]; try discriminate Hins.
  destruct (id_accepted d c) eqn:Hacc.
  - destruct (insert_one_accepted d c Hacc) as (id & Heq & Hnew & Hold).
    rewrite Heq in Hins. injection Hins as <- <-. exists d, id. auto 10.
  - destruct (insert_one_refused d c Hacc) as [e He]. rewrite He in Hins.
    discriminate Hins.
Qed.

(** What a handler that stores [v] and then answers [code] does: it answers
    [code] with the document appended, or raises what [insert_one] raised
    and leaves the store as it was. *)
Lemma store_outcome h (v : value) msg code s :
  let r := (_ <- on h (insert_one v) ;; respond msg code) s in
  (status_of r = Some code ->
   exists d id,
     v = VDoc d
     /\ id_accepted d (get_coll h s) = true
     /\ (dict_get d "_id" = None -> id = VOid (fresh_oid (get_coll h s)))
     /\ (forall w, dict_get d "_id" = Some w -> id = w)
     /\ r = (Ok (Some (mkResponse (jsonify msg) code)),
             set_coll h (get_coll h s ++ [bson_order (dict_set d "_id" id)]) s)
     /\ find_all_no_id (get_coll h s ++ [bson_order (dict_set d "_id" id)])
        = find_all_no_id (get_coll h s) ++ [dict_remove "_id" d])
  /\ (status_of r <> Some code -> exists e, r = (Raise e, s))
  /\ (forall d, v = VDoc d -> id_accepted d (get_coll h s) = false ->
        exists e, r = (Raise e, s)).
Proof.
  intros r. subst r. unfold bind, on, respond, ret.
  destruct (insert_one v (get_coll h s)) as [[r c']|e] eqn:Hins.
  - destruct (insert_one_ok_inv v _ _ _ Hins)
      as (d & id & -> & Hacc & -> & -> & Hnew & Hold).
    split; [|split].
    + intros _. exists d, id. split; [reflexivity|].
      do 3 (split; [assumption|]).
      split; [reflexivity | apply find_all_no_id_insert].
    + intros Hne. now destruct Hne.
    + intros d0 [= <-] Hrej. congruence.
  - split; [discriminate|]. split; eauto.
Qed.

Lemma submit_contact_cases (req : request) (s : store) :
  submit_contact req s
  = if truthy (json req)
    then (_ <- on Contacts (insert_one (json req)) ;;
          respond [("message", VStr "Contact submitted")] 201) s
    else (Ok (Some (mkResponse (jsonify [("error", VStr "No data provided")]) 400)), s).
Proof. unfold submit_contact. now destruct (truthy (json req)). Qed.





(** ** The admin write handlers *)

Lemma multi_mem_get {A} key (m : list (string * A)) :
  multi_mem key m = true <-> exists v, multi_get key m = Some v.
Proof.
  unfold multi_mem. induction m as [|[k v] m IH]; simpl.
  - split; [discriminate | intros [v H]; discriminate].
  - destruct (String.eqb k key); simpl; [split; eauto | exact IH].
Qed.

(** C6. [add_project] answers 400 to every request without an ["image"]
    file part, whatever its other fields, and to every request with an image
    part whose name or description is missing or empty; it writes nothing
    in either case. *)
Theorem add_project_validation (req : request) (s : store) :
  (multi_mem "image" (files req) = false ->
   add_project req s
   = (Ok (Some (mkResponse (jsonify [("error", VStr "No image uploaded")]) 400)), s))
  /\ (multi_mem "image" (files req) = true ->
      field_truthy (multi_get "name" (form req)) = false
      \/ field_truthy (multi_get "description" (form req)) = false ->
      add_project req s
      = (Ok (Some (mkResponse
                     (jsonify [("error", VStr "Name and description are required")])
                     400)), s)).
Proof.
  split.
  - intros Hmem. unfold add_project, try_except. now rewrite Hmem.
  - intros Hmem Hfields.
    destruct (proj1 (multi_mem_get _ _) Hmem) as [file Hfile].
    enter_handler Hmem Hfile.
    destruct Hfields as [H|H]; rewrite H;
      [|destruct (field_truthy (multi_get "name" (form req)))]; reflexivity.
Qed.

Lemma add_project_validation_witness :
  add_project (mkRequest VNull [] [("name", "X"); ("description", "Y")]) empty_store
  = (Ok (Some (mkResponse (jsonify [("error", VStr "No image uploaded")]) 400)),
     empty_store)
  /\ add_project
       (mkRequest VNull [("image", mkFile "a.jpg" (Some "image/jpeg") [])]
          [("name", "X"); ("description", "")])
       empty_store
     = (Ok (Some (mkResponse
                    (jsonify [("error", VStr "Name and description are required")])
                    400)), empty_store).
Proof.
  split.
  - exact (proj1 (add_project_validation
                    (mkRequest VNull [] [("name", "X"); ("description", "Y")])
                    empty_store) eq_refl).
  - exact (proj2 (add_project_validation
                    (mkRequest VNull [("image", mkFile "a.jpg" (Some "image/jpeg") [])]
                       [("name", "X"); ("description", "")])
                    empty_store) eq_refl (or_intror eq_refl)).
Defined.

Lemma dict_set_absent (d : document) k v :
  dict_get d k = None -> dict_set d k v = d ++ [(k, v)].
Proof.
  induction d as [|[k' v'] d IH]; simpl; [reflexivity|].
  destruct (String.eqb k' k); [discriminate|]. intros H. now rewrite IH.
Qed.

Lemma dict_remove_app_last (d : document) k v :
  dict_get d k = None -> dict_remove k (d ++ [(k, v)]) = d.
Proof.
  induction d as [|[k' v'] d IH]; simpl.
  - now rewrite String.eqb_refl.
  - destruct (String.eqb k' k); [discriminate|]. intros H. now rewrite IH.
Qed.

(** A dictionary without [_id] gets a new ObjectId and is always stored. *)
Lemma insert_one_new (d : document) (c : collection) :
  dict_get d "_id" = None ->
  let oid := VOid (fresh_oid c) in
  insert_one (VDoc d) c
  = Ok ((d ++ [("_id", oid)], oid), c ++ [("_id", oid) :: d]).
Proof.
  intros Hnone oid. unfold insert_one. rewrite Hnone. cbv beta iota zeta.
  rewrite fresh_oid_new. fold oid.
  rewrite (dict_set_absent d "_id" oid Hnone). unfold bson_order.
  replace (dict_get (d ++ [("_id", oid)]) "_id") with (Some oid).
  - now rewrite dict_remove_app_last.
  - rewrite <- (dict_set_absent d "_id" oid Hnone). symmetry. apply dict_get_set_eq.
Qed.



(** C9, as the code has it.  A request whose ["image"] part is present with
    a falsy file object (an empty file name) and whose required text fields
    are all non-empty gets no response from [add_project] nor from
    [add_client]: the function reaches its end, returns nothing, raises
    nothing and writes nothing. *)
Theorem falsy_file_falls_through (req : request) (s : store) (file : FileStorage) :
  multi_get "image" (files req) = Some file ->
  file_truthy file = false ->
  field_truthy (multi_get "name" (form req)) = true ->
  field_truthy (multi_get "description" (form req)) = true ->
  add_project req s = (Ok None, s)
  /\ (field_truthy (multi_get "designation" (form req)) = true ->
      add_client req s = (Ok None, s)).
Proof.
  intros Hfile Hfalsy Hname Hdesc.
  assert (Hmem : multi_mem "image" (files req) = true)
    by (apply multi_mem_get; eauto).
  split.
  - enter_handler Hmem Hfile. now rewrite Hname, Hdesc, Hfalsy.
  - intros Hdesig. enter_handler Hmem Hfile.
    now rewrite Hname, Hdesc, Hdesig, Hfalsy.
Qed.

Lemma falsy_file_falls_through_witness :
  let req :=
    mkRequest VNull [("image", mkFile "" None [])]
      [("name", "X"); ("description", "Y"); ("designation", "Z")] in
  add_project req empty_store = (Ok None, empty_store)
  /\ add_client req empty_store = (Ok None, empty_store).
Proof.
  destruct (falsy_file_falls_through
              (mkRequest VNull [("image", mkFile "" None [])]
                 [("name", "X"); ("description", "Y"); ("designation", "Z")])
              empty_store (mkFile "" None []) eq_refl eq_refl eq_refl eq_refl)
    as [Hp Hc].
  exact (conj Hp (Hc eq_refl)).
Defined.

(** C9 as stated fails: with the image part present and falsy but no name,
    the validation branch fires and both handlers answer 400. *)
Lemma falsy_file_falls_through_counterexample :
  let req := mkRequest VNull [("image", mkFile "" None [])] [("description", "Y")] in
  multi_mem "image" (files req) = true
  /\ multi_get "image" (files req) = Some (mkFile "" None [])
  /\ file_truthy (mkFile "" None []) = false
  /\ add_project req empty_store
     = (Ok (Some (mkResponse
                    (jsonify [("error", VStr "Name and description are required")])
                    400)), empty_store)
  /\ add_client req empty_store
     = (Ok (Some (mkResponse
                    (jsonify [("error",
                               VStr "Name, description, and designation are required")])
                    400)), empty_store).
Proof. repeat split. Qed.

(** C10. A request that [add_project] or [add_client] answers with 400 is
    one that lacks the image part or a required text field, and it leaves
    the store as it was: no counter is incremented (no sequence value is
    consumed) and no document is inserted in any collection. *)
Theorem rejected_request_writes_nothing (req : request) (s : store) :
  (status_of (add_project req s) = Some 400 ->
   snd (add_project req s) = s
   /\ (multi_mem "image" (files req) = false
       \/ field_truthy (multi_get "name" (form req)) = false
       \/ field_truthy (multi_get "description" (form req)) = false))
  /\ (status_of (add_client req s) = Some 400 ->
      snd (add_client req s) = s
      /\ (multi_mem "image" (files req) = false
          \/ field_truthy (multi_get "name" (form req)) = false
          \/ field_truthy (multi_get "description" (form req)) = false
          \/ field_truthy (multi_get "designation" (form req)) = false)).
Proof.
  split.
  - destruct (multi_mem "image" (files req)) eqn:Hmem.
    + destruct (proj1 (multi_mem_get _ _) Hmem) as [file Hfile].
      enter_handler Hmem Hfile.
      destruct (field_truthy (multi_get "name" (form req)));
        [|intros _; split; auto].
      destruct (field_truthy (multi_get "description" (form req)));
        [|intros _; split; auto].
      cbn [negb orb]. destruct (file_truthy file); [|discriminate].
      unfold status_of, bind.
      destruct (get_next_id mongo_find_one_and_update "projects" s) as [[v|e] s1];
        [|discriminate].
      destruct (on Projects _ s1) as [[r|e] s2]; discriminate.
    + unfold add_project, try_except. rewrite Hmem. intros _. split; auto.
  - destruct (multi_mem "image" (files req)) eqn:Hmem.
    + destruct (proj1 (multi_mem_get _ _) Hmem) as [file Hfile].
      enter_handler Hmem Hfile.
      destruct (field_truthy (multi_get "name" (form req)));
        [|intros _; split; auto].
      destruct (field_truthy (multi_get "description" (form req)));
        [|intros _; split; auto].
      destruct (field_truthy (multi_get "designation" (form req)));
        [|intros _; split; auto 6].
      cbn [negb orb]. destruct (file_truthy file); [|discriminate].
      unfold status_of, bind.
      destruct (get_next_id mongo_find_one_and_update "clients" s) as [[v|e] s1];
        [|discriminate].
      destruct (on Clients _ s1) as [[r|e] s2]; discriminate.
    + unfold add_client, try_except. rewrite Hmem. intros _. split; auto.
Qed.

Lemma rejected_request_writes_nothing_witness :
  let s :=
    mkStore [] [] [] [] [[("_id", VStr "projects"); ("sequence_value", VInt 4)]] in
  let req := mkRequest VNull [] [("name", "X"); ("description", "Y")] in
  snd (add_project req s) = s /\ snd (add_client req s) = s.
Proof.
  destruct (rejected_request_writes_nothing
              (mkRequest VNull [] [("name", "X"); ("description", "Y")])
              (mkStore [] [] [] []
                 [[("_id", VStr "projects"); ("sequence_value", VInt 4)]]))
    as [Hp Hc].
  exact (conj (proj1 (Hp eq_refl)) (proj1 (Hc eq_refl))).
Defined.

(** ** The read handlers *)

Lemma find_all_no_id_lookup (c : collection) i (d : document) :
  c !! i = Some d -> find_all_no_id c !! i = Some (dict_remove "_id" d).
Proof.
  revert i. induction c as [|d0 c IH]; intros [|i] H; try discriminate.
  - now injection H as ->.
  - exact (IH i H).
Qed.

(** C8. In every state of the store each of the four read handlers answers
    200 with the documents of its collection, all of them and in stored
    order, each without its [_id] field and with every other field as it
    is stored; the store is not changed. *)
Theorem listings_return_all_without_id (s : store) :
  let answer key h :=
    (Ok (Some (mkResponse
                 (jsonify [(key, VArr (map VDoc (find_all_no_id (get_coll h s))))])
                 200)), s) in
  get_projects s = answer "projects" Projects
  /\ get_clients s = answer "clients" Clients
  /\ get_all_contacts s = answer "contacts" Contacts
  /\ get_all_subscribers s = answer "subscribers" Subscribers
  /\ forall h,
       length (find_all_no_id (get_coll h s)) = length (get_coll h s)
       /\ Forall (fun d => dict_mem "_id" d = false) (find_all_no_id (get_coll h s))
       /\ forall i d,
            get_coll h s !! i = Some d ->
            exists d',
              find_all_no_id (get_coll h s) !! i = Some d'
              /\ d' = dict_remove "_id" d
              /\ forall k, k <> "_id" -> dict_get d' k = dict_get d k.
Proof.
  intros answer. repeat (split; [reflexivity|]).
  intros h. split; [|split].
  - unfold find_all_no_id. apply length_map.
  - unfold find_all_no_id. apply Forall_map, Forall_forall. intros d _.
    unfold dict_mem. now rewrite dict_get_remove_eq.
  - intros i d Hi. exists (dict_remove "_id" d).
    split; [now apply find_all_no_id_lookup|]. split; [reflexivity|].
    intros k Hk. apply dict_get_remove_ne. congruence.
Qed.

(** ** The counters of every reachable store are well formed *)

Lemma on_keeps_counters {A} h (op : collection -> result (A * collection)) s :
  h <> Counters ->
  counter_collection (snd (on h op s)) = counter_collection s.
Proof.
  intros Hne. unfold on. destruct (op (get_coll h s)) as [[a c']|e]; [|reflexivity].
  destruct h; try reflexivity; congruence.
Qed.

Lemma store_keeps_counters h v (k : M (option response)) s :
  h <> Counters ->
  (forall s0, snd (k s0) = s0) ->
  counter_collection (snd ((_ <- on h (insert_one v) ;; k) s))
  = counter_collection s.
Proof.
  intros Hne Hk. unfold bind.
  pose proof (on_keeps_counters h (insert_one v) s Hne) as Hon.
  destruct (on h (insert_one v) s) as [[r|e] s1]; simpl in *; [|assumption].
  now rewrite Hk.
Qed.

Lemma add_keeps_counters_ok name h (mk : Z -> value)
    (k : document * value -> M (option response)) (handler : exn -> M (option response)) s :
  h <> Counters ->
  (forall r s0, snd (k r s0) = s0) ->
  (forall e s0, snd (handler e s0) = s0) ->
  counters_ok s = true ->
  counters_ok
    (snd (try_except
            (id <- get_next_id mongo_find_one_and_update name ;;
             result <- on h (insert_one (mk id)) ;;
             k result)
            handler s)) = true.
Proof.
  intros Hne Hk Hh Hok.
  destruct (get_next_id_call name s Hok) as (s1 & Hcall & Hok1 & _).
  unfold try_except. unfold bind at 1. rewrite Hcall. unfold bind.
  pose proof (on_keeps_counters h (insert_one (mk (current name s + 1))) s1 Hne)
    as Hon.
  destruct (on h _ s1) as [[r|e] s2]; simpl in Hon.
  - destruct (k r s2) as [[a|e] s3] eqn:Hkr;
      pose proof (Hk r s2) as Hs; rewrite Hkr in Hs; simpl in Hs; subst s3.
    + simpl. unfold counters_ok in *. now rewrite Hon.
    + rewrite Hh. unfold counters_ok in *. now rewrite Hon.
  - rewrite Hh. unfold counters_ok in *. now rewrite Hon.
Qed.

Lemma serve_keeps_counters_ok c s :
  counters_ok s = true -> counters_ok (snd (serve c s)) = true.
Proof.
  intros Hok. destruct c as [| |req|req|req|req| |]; simpl serve; try assumption.
  - unfold submit_contact. destruct (truthy (json req)); [|assumption].
    cbn [negb]. unfold counters_ok.
    now rewrite store_keeps_counters by (try discriminate; reflexivity).
  - unfold subscribe. destruct (truthy (json req)); [|assumption].
    cbn [negb]. unfold bind at 1.
    destruct (contains "email" (json req)) as [[]|e]; try assumption.
    cbn [negb]. unfold counters_ok.
    now rewrite store_keeps_counters by (try discriminate; reflexivity).
  - destruct (multi_mem "image" (files req)) eqn:Hmem;
      [|unfold add_project, try_except; now rewrite Hmem].
    destruct (proj1 (multi_mem_get _ _) Hmem) as [file Hfile].
    unfold add_project. rewrite Hmem. cbn [negb]. unfold multi_getitem.
    rewrite Hfile. unfold try_except at 1. unfold bind at 1. unfold ret at 1.
    cbv beta iota.
    destruct (negb (field_truthy (multi_get "name" (form req)))
              || negb (field_truthy (multi_get "description" (form req))));
      [assumption|].
    destruct (file_truthy file); [|assumption].
    apply (add_keeps_counters_ok "projects" Projects
             (fun id => VDoc [("id", VInt id); _; _; _])
             (fun result => respond _ 201)
             (fun e => respond _ 500)); try assumption; try discriminate; reflexivity.
  - destruct (multi_mem "image" (files req)) eqn:Hmem;
      [|unfold add_client, try_except; now rewrite Hmem].
    destruct (proj1 (multi_mem_get _ _) Hmem) as [file Hfile].
    unfold add_client. rewrite Hmem. cbn [negb]. unfold multi_getitem.
    rewrite Hfile. unfold try_except at 1. unfold bind at 1. unfold ret at 1.
    cbv beta iota.
    destruct (negb (field_truthy (multi_get "name" (form req)))
              || negb (field_truthy (multi_get "description" (form req)))
              || negb (field_truthy (multi_get "designation" (form req))));
      [assumption|].
    destruct (file_truthy file); [|assumption].
    apply (add_keeps_counters_ok "clients" Clients
             (fun id => VDoc [("id", VInt id); _; _; _; _])
             (fun result => respond _ 201)
             (fun e => respond _ 500)); try assumption; try discriminate; reflexivity.
Qed.

(** Whatever requests were served since the store was empty, its counters
    hold integers: the states of C3, C4 and C7 are the states the
    application reaches. *)
Lemma reachable_counters_ok cs : counters_ok (serve_all cs empty_store) = true.
Proof.
  unfold serve_all. generalize empty_store (eq_refl : counters_ok empty_store = true).
  induction cs as [|c cs IH]; intros s Hok; simpl; [assumption|].
  apply IH. now apply serve_keeps_counters_ok.
Qed.

(** ** The admin write handlers, case by case *)

Lemma field_truthy_some (o : option string) :
  field_truthy o = true -> exists v, o = Some v /\ v <> "" /\ field_value o = VStr v.
Proof.
  destruct o as [v|]; [|discriminate]. simpl. intros H. exists v.
  apply negb_true_iff, String.eqb_neq in H. auto.
Qed.

(** The successful run of [add_project]. *)
Lemma add_project_ok (req : request) (s : store) (file : FileStorage)
    (name description : string) :
  multi_get "image" (files req) = Some file ->
  file_truthy file = true ->
  multi_get "name" (form req) = Some name -> name <> "" ->
  multi_get "description" (form req) = Some description -> description <> "" ->
  counters_ok s = true ->
  let record := project_record (current "projects" s + 1) name description file in
  let oid := fresh_oid (projects_collection s) in
  exists s',
    add_project req s
    = (Ok (Some (mkResponse
                   (jsonify [("message", VStr "Project created");
                             ("data", VDoc (record ++ [("_id", VStr (oid_str oid))]))])
                   201)), s')
    /\ projects_collection s' = projects_collection s ++ [("_id", VOid oid) :: record]
    /\ clients_collection s' = clients_collection s
    /\ contacts_collection s' = contacts_collection s
    /\ subscribers_collection s' = subscribers_collection s
    /\ counters_ok s' = true
    /\ current "projects" s' = current "projects" s + 1
    /\ forall other, other <> "projects" -> current other s' = current other s.
Proof.
  intros Hfile Ht Hname Hn Hdesc Hd Hok record oid.
  assert (Hmem : multi_mem "image" (files req) = true)
    by (apply multi_mem_get; eauto).
  destruct (get_next_id_call "projects" s Hok)
    as (s1 & Hcall & Hok1 & Hcur & Hoth & _ & Hsame).
  enter_handler Hmem Hfile. rewrite Hname, Hdesc. unfold field_truthy.
  apply String.eqb_neq in Hn, Hd. rewrite Hn, Hd. cbn [negb orb].
  rewrite Ht. unfold bind at 1. rewrite Hcall.
  unfold bind, on, respond, ret.
  rewrite insert_one_new by reflexivity. cbv beta iota zeta.
  rewrite (Hsame Projects) by discriminate. simpl get_coll.
  exists (set_coll Projects
            (projects_collection s ++ [("_id", VOid oid) :: record]) s1).
  split; [reflexivity|]. split; [reflexivity|].
  split; [exact (Hsame Clients ltac:(discriminate))|].
  split; [exact (Hsame Contacts ltac:(discriminate))|].
  split; [exact (Hsame Subscribers ltac:(discriminate))|].
  split; [exact Hok1|]. split; [exact Hcur | exact Hoth].
Qed.

(** The successful run of [add_client]. *)
Lemma add_client_ok (req : request) (s : store) (file : FileStorage)
    (name description designation : string) :
  multi_get "image" (files req) = Some file ->
  file_truthy file = true ->
  multi_get "name" (form req) = Some name -> name <> "" ->
  multi_get "description" (form req) = Some description -> description <> "" ->
  multi_get "designation" (form req) = Some designation -> designation <> "" ->
  counters_ok s = true ->
  let record :=
    client_record (current "clients" s + 1) name description designation file in
  let oid := fresh_oid (clients_collection s) in
  exists s',
    add_client req s
    = (Ok (Some (mkResponse
                   (jsonify [("message", VStr "Client added");
                             ("data", VDoc (record ++ [("_id", VStr (oid_str oid))]))])
                   201)), s')
    /\ clients_collection s' = clients_collection s ++ [("_id", VOid oid) :: record]
    /\ projects_collection s' = projects_collection s
    /\ contacts_collection s' = contacts_collection s
    /\ subscribers_collection s' = subscribers_collection s
    /\ counters_ok s' = true
    /\ current "clients" s' = current "clients" s + 1
    /\ forall other, other <> "clients" -> current other s' = current other s.
Proof.
  intros Hfile Ht Hname Hn Hdesc Hd Hdesig Hg Hok record oid.
  assert (Hmem : multi_mem "image" (files req) = true)
    by (apply multi_mem_get; eauto).
  destruct (get_next_id_call "clients" s Hok)
    as (s1 & Hcall & Hok1 & Hcur & Hoth & _ & Hsame).
  enter_handler Hmem Hfile. rewrite Hname, Hdesc, Hdesig. unfold field_truthy.
  apply String.eqb_neq in Hn, Hd, Hg. rewrite Hn, Hd, Hg. cbn [negb orb].
  rewrite Ht. unfold bind at 1. rewrite Hcall.
  unfold bind, on, respond, ret.
  rewrite insert_one_new by reflexivity. cbv beta iota zeta.
  rewrite (Hsame Clients) by discriminate. simpl get_coll.
  exists (set_coll Clients
            (clients_collection s ++ [("_id", VOid oid) :: record]) s1).
  split; [reflexivity|]. split; [reflexivity|].
  split; [exact (Hsame Projects ltac:(discriminate))|].
  split; [exact (Hsame Contacts ltac:(discriminate))|].
  split; [exact (Hsame Subscribers ltac:(discriminate))|].
  split; [exact Hok1|]. split; [exact Hcur | exact Hoth].
Qed.

Lemma nothing_done (r : result (option response) * store) (s : store)
    (x : option response) :
  r = (Ok x, s) ->
  x = None \/ (exists b, x = Some (mkResponse b 400)) ->
  snd r = s /\ (status_of r = Some 400 \/ status_of r = None).
Proof.
  intros -> [->|[b ->]]; split; try reflexivity; [right | left]; reflexivity.
Qed.

(** What a request to [add_project] does to a store with well-formed
    counters: nothing (answering 400 or not at all), or one new project
    under the next id. *)
Lemma add_project_effect (req : request) (s : store) :
  counters_ok s = true ->
  let r := add_project req s in
  (snd r = s /\ (status_of r = Some 400 \/ status_of r = None))
  \/ (status_of r = Some 201
      /\ counters_ok (snd r) = true
      /\ current "projects" (snd r) = current "projects" s + 1
      /\ (forall other, other <> "projects" ->
            current other (snd r) = current other s)
      /\ (exists record,
            dict_get record "id" = Some (VInt (current "projects" s + 1))
            /\ projects_collection (snd r) = projects_collection s ++ [record])
      /\ clients_collection (snd r) = clients_collection s
      /\ contacts_collection (snd r) = contacts_collection s
      /\ subscribers_collection (snd r) = subscribers_collection s).
Proof.
  intros Hok r. subst r.
  destruct (multi_mem "image" (files req)) eqn:Hmem.
  - destruct (proj1 (multi_mem_get _ _) Hmem) as [file Hfile].
    destruct (field_truthy (multi_get "name" (form req))) eqn:Hn;
      [|left; eapply nothing_done;
         [enter_handler Hmem Hfile; rewrite Hn; reflexivity | eauto]].
    destruct (field_truthy (multi_get "description" (form req))) eqn:Hd;
      [|left; eapply nothing_done;
         [enter_handler Hmem Hfile; rewrite Hn, Hd; reflexivity | eauto]].
    destruct (file_truthy file) eqn:Ht;
      [|left; eapply nothing_done;
         [enter_handler Hmem Hfile; rewrite Hn, Hd, Ht; reflexivity | eauto]].
    right.
    destruct (field_truthy_some _ Hn) as (name & Hname & Hne & _).
    destruct (field_truthy_some _ Hd) as (descr & Hdescr & Hde & _).
    destruct (add_project_ok req s file name descr Hfile Ht Hname Hne Hdescr Hde Hok)
      as (s' & Hrun & Hp & Hc & Hco & Hsu & Hok' & Hcur & Hoth).
    rewrite Hrun. simpl snd. unfold status_of. simpl.
    repeat (split; [first [reflexivity | assumption]|]).
    split; [|auto]. eexists. split; [|exact Hp]. reflexivity.
  - left. eapply nothing_done;
      [unfold add_project, try_except; rewrite Hmem; reflexivity | eauto].
Qed.

Lemma add_client_effect (req : request) (s : store) :
  counters_ok s = true ->
  let r := add_client req s in
  (snd r = s /\ (status_of r = Some 400 \/ status_of r = None))
  \/ (status_of r = Some 201
      /\ counters_ok (snd r) = true
      /\ current "clients" (snd r) = current "clients" s + 1
      /\ (forall other, other <> "clients" ->
            current other (snd r) = current other s)
      /\ (exists record,
            dict_get record "id" = Some (VInt (current "clients" s + 1))
            /\ clients_collection (snd r) = clients_collection s ++ [record])
      /\ projects_collection (snd r) = projects_collection s
      /\ contacts_collection (snd r) = contacts_collection s
      /\ subscribers_collection (snd r) = subscribers_collection s).
Proof.
  intros Hok r. subst r.
  destruct (multi_mem "image" (files req)) eqn:Hmem.
  - destruct (proj1 (multi_mem_get _ _) Hmem) as [file Hfile].
    destruct (field_truthy (multi_get "name" (form req))) eqn:Hn;
      [|left; eapply nothing_done;
         [enter_handler Hmem Hfile; rewrite Hn; reflexivity | eauto]].
    destruct (field_truthy (multi_get "description" (form req))) eqn:Hd;
      [|left; eapply nothing_done;
         [enter_handler Hmem Hfile; rewrite Hn, Hd; reflexivity | eauto]].
    destruct (field_truthy (multi_get "designation" (form req))) eqn:Hg;
      [|left; eapply nothing_done;
         [enter_handler Hmem Hfile; rewrite Hn, Hd, Hg; reflexivity | eauto]].
    destruct (file_truthy file) eqn:Ht;
      [|left; eapply nothing_done;
         [enter_handler Hmem Hfile; rewrite Hn, Hd, Hg, Ht; reflexivity | eauto]].
    right.
    destruct (field_truthy_some _ Hn) as (name & Hname & Hne & _).
    destruct (field_truthy_some _ Hd) as (descr & Hdescr & Hde & _).
    destruct (field_truthy_some _ Hg) as (desig & Hdesig & Hge & _).
    destruct (add_client_ok req s file name descr desig
                Hfile Ht Hname Hne Hdescr Hde Hdesig Hge Hok)
      as (s' & Hrun & Hp & Hc & Hco & Hsu & Hok' & Hcur & Hoth).
    rewrite Hrun. simpl snd. unfold status_of. simpl.
    repeat (split; [first [reflexivity | assumption]|]).
    split; [|auto]. eexists. split; [|exact Hp]. reflexivity.
  - left. eapply nothing_done;
      [unfold add_client, try_except; rewrite Hmem; reflexivity | eauto].
Qed.

(** ** Further properties of the admin write handlers *)

(** X1. [add_client] answers 400 to every request without an ["image"] file
    part, and to every request with an image part whose name, description or
    designation is missing or empty; it writes nothing in either case. *)
Theorem add_client_validation (req : request) (s : store) :
  (multi_mem "image" (files req) = false ->
   add_client req s
   = (Ok (Some (mkResponse (jsonify [("error", VStr "No image uploaded")]) 400)), s))
  /\ (multi_mem "image" (files req) = true ->
      field_truthy (multi_get "name" (form req)) = false
      \/ field_truthy (multi_get "description" (form req)) = false
      \/ field_truthy (multi_get "designation" (form req)) = false ->
      add_client req s
      = (Ok (Some (mkResponse
                     (jsonify [("error",
                                VStr "Name, description, and designation are required")])
                     400)), s)).
Proof.
  split.
  - intros Hmem. unfold add_client, try_except. now rewrite Hmem.
  - intros Hmem Hfields.
    destruct (proj1 (multi_mem_get _ _) Hmem) as [file Hfile].
    enter_handler Hmem Hfile.
    destruct Hfields as [H|[H|H]]; rewrite H;
      destruct (field_truthy (multi_get "name" (form req)));
      try destruct (field_truthy (multi_get "description" (form req)));
      reflexivity.
Qed.

Lemma add_client_validation_witness :
  add_client (mkRequest VNull [] [("name", "X")]) empty_store
  = (Ok (Some (mkResponse (jsonify [("error", VStr "No image uploaded")]) 400)),
     empty_store)
  /\ add_client
       (mkRequest VNull [("image", mkFile "a.png" (Some "image/png") [])]
          [("name", "X"); ("description", "Y")])
       empty_store
     = (Ok (Some (mkResponse
                    (jsonify [("error",
                               VStr "Name, description, and designation are required")])
                    400)), empty_store).
Proof.
  split.
  - exact (proj1 (add_client_validation (mkRequest VNull [] [("name", "X")])
                    empty_store) eq_refl).
  - exact (proj2 (add_client_validation
                    (mkRequest VNull [("image", mkFile "a.png" (Some "image/png") [])]
                       [("name", "X"); ("description", "Y")])
                    empty_store) eq_refl (or_intror (or_intror eq_refl))).
Defined.

Lemma add_project_201 (req : request) (s : store) :
  status_of (add_project req s) = Some 201 ->
  exists file name description,
    multi_get "image" (files req) = Some file /\ file_truthy file = true
    /\ multi_get "name" (form req) = Some name /\ name <> ""
    /\ multi_get "description" (form req) = Some description /\ description <> "".
Proof.
  destruct (multi_mem "image" (files req)) eqn:Hmem;
    [|unfold add_project, try_except; rewrite Hmem; discriminate].
  destruct (proj1 (multi_mem_get _ _) Hmem) as [file Hfile].
  destruct (field_truthy (multi_get "name" (form req))) eqn:Hn;
    [|enter_handler Hmem Hfile; rewrite Hn; discriminate].
  destruct (field_truthy (multi_get "description" (form req))) eqn:Hd;
    [|enter_handler Hmem Hfile; rewrite Hn, Hd; discriminate].
  destruct (file_truthy file) eqn:Ht;
    [|enter_handler Hmem Hfile; rewrite Hn, Hd, Ht; discriminate].
  intros _.
  destruct (field_truthy_some _ Hn) as (name & Hname & Hne & _).
  destruct (field_truthy_some _ Hd) as (descr & Hdescr & Hde & _).
  exists file, name, descr. auto 10.
Qed.

Lemma add_client_201 (req : request) (s : store) :
  status_of (add_client req s) = Some 201 ->
  exists file name description designation,
    multi_get "image" (files req) = Some file /\ file_truthy file = true
    /\ multi_get "name" (form req) = Some name /\ name <> ""
    /\ multi_get "description" (form req) = Some description /\ description <> ""
    /\ multi_get "designation" (form req) = Some designation /\ designation <> "".
Proof.
  destruct (multi_mem "image" (files req)) eqn:Hmem;
    [|unfold add_client, try_except; rewrite Hmem; discriminate].
  destruct (proj1 (multi_mem_get _ _) Hmem) as [file Hfile].
  destruct (field_truthy (multi_get "name" (form req))) eqn:Hn;
    [|enter_handler Hmem Hfile; rewrite Hn; discriminate].
  destruct (field_truthy (multi_get "description" (form req))) eqn:Hd;
    [|enter_handler Hmem Hfile; rewrite Hn, Hd; discriminate].
  destruct (field_truthy (multi_get "designation" (form req))) eqn:Hg;
    [|enter_handler Hmem Hfile; rewrite Hn, Hd, Hg; discriminate].
  destruct (file_truthy file) eqn:Ht;
    [|enter_handler Hmem Hfile; rewrite Hn, Hd, Hg, Ht; discriminate].
  intros _.
  destruct (field_truthy_some _ Hn) as (name & Hname & Hne & _).
  destruct (field_truthy_some _ Hd) as (descr & Hdescr & Hde & _).
  destruct (field_truthy_some _ Hg) as (desig & Hdesig & Hge & _).
  exists file, name, descr, desig. auto 12.
Qed.

(** X2. A successful request to [add_client], one that is answered 201, is
    one with a named image file and non-empty name, description and
    designation.  [data] then holds the next value of the ["clients"]
    sequence as [id], the three text fields, the data URL of the image and
    the ObjectId of the stored document as a string; the document
    [{id, name, description, designation, image_url}] is appended to the
    clients, read back as such by the listing; the ["clients"] counter holds
    [id]; the projects and their counter are as before. *)
Theorem add_client_success (req : request) (s : store) :
  counters_ok s = true ->
  status_of (add_client req s) = Some 201 ->
  exists file name description designation s',
    multi_get "image" (files req) = Some file /\ filename file <> ""
    /\ multi_get "name" (form req) = Some name /\ name <> ""
    /\ multi_get "description" (form req) = Some description /\ description <> ""
    /\ multi_get "designation" (form req) = Some designation /\ designation <> ""
    /\ let id := current "clients" s + 1 in
       let record :=
         [("id", VInt id); ("name", VStr name); ("description", VStr description);
          ("designation", VStr designation); ("image_url", VStr (data_url file))] in
       let oid := fresh_oid (clients_collection s) in
       add_client req s
       = (Ok (Some (mkResponse
                      (jsonify [("message", VStr "Client added");
                                ("data", VDoc (record ++ [("_id", VStr (oid_str oid))]))])
                      201)), s')
       /\ clients_collection s' = clients_collection s ++ [("_id", VOid oid) :: record]
       /\ find_all_no_id (clients_collection s')
          = find_all_no_id (clients_collection s) ++ [record]
       /\ current "clients" s' = id
       /\ current "projects" s' = current "projects" s
       /\ projects_collection s' = projects_collection s.
Proof.
  intros Hok H201.
  destruct (add_client_201 req s H201)
    as (file & name & descr & desig & Hfile & Ht & Hname & Hn & Hdesc & Hd & Hdesig & Hg).
  destruct (add_client_ok req s file name descr desig
              Hfile Ht Hname Hn Hdesc Hd Hdesig Hg Hok)
    as (s' & Hrun & Hc & Hp & _ & _ & _ & Hcur & Hoth).
  exists file, name, descr, desig, s'.
  assert (Hfn : filename file <> "").
  { unfold file_truthy in Ht. apply negb_true_iff in Ht. now apply String.eqb_neq. }
  do 8 (split; [assumption|]). cbv zeta.
  split; [exact Hrun|]. split; [exact Hc|]. split.
  { rewrite Hc. unfold find_all_no_id. rewrite map_app. reflexivity. }
  split; [exact Hcur|]. split; [apply Hoth; discriminate | exact Hp].
Qed.

Lemma add_client_success_witness :
  let req :=
    mkRequest VNull
      [("image", mkFile "logo.png" (Some "image/png") [Byte.x89; Byte.x50])]
      [("name", "Ann"); ("description", "Y"); ("designation", "CEO")] in
  exists file name description designation s',
    multi_get "image" (files req) = Some file /\ filename file <> ""
    /\ multi_get "name" (form req) = Some name /\ name <> ""
    /\ multi_get "description" (form req) = Some description /\ description <> ""
    /\ multi_get "designation" (form req) = Some designation /\ designation <> ""
    /\ let id := current "clients" empty_store + 1 in
       let record :=
         [("id", VInt id); ("name", VStr name); ("description", VStr description);
          ("designation", VStr designation); ("image_url", VStr (data_url file))] in
       let oid := fresh_oid (clients_collection empty_store) in
       add_client req empty_store
       = (Ok (Some (mkResponse
                      (jsonify [("message", VStr "Client added");
                                ("data", VDoc (record ++ [("_id", VStr (oid_str oid))]))])
                      201)), s')
       /\ clients_collection s'
          = clients_collection empty_store ++ [("_id", VOid oid) :: record]
       /\ find_all_no_id (clients_collection s')
          = find_all_no_id (clients_collection empty_store) ++ [record]
       /\ current "clients" s' = id
       /\ current "projects" s' = current "projects" empty_store
       /\ projects_collection s' = projects_collection empty_store.
Proof.
  exact (add_client_success
           (mkRequest VNull
              [("image", mkFile "logo.png" (Some "image/png") [Byte.x89; Byte.x50])]
              [("name", "Ann"); ("description", "Y"); ("designation", "CEO")])
           empty_store eq_refl eq_refl).
Defined.

(** X3. An image part that carries no content type does not stop a
    request: when [add_project] answers 201 for it, the f-string has
    formatted [None], and the stored and returned [image_url] is
    ["data:None;base64," + base64(bytes)]. *)
Theorem add_project_untyped_image (req : request) (s : store) (file : FileStorage) :
  multi_get "image" (files req) = Some file ->
  content_type file = None ->
  counters_ok s = true ->
  status_of (add_project req s) = Some 201 ->
  exists s' name description oid,
    multi_get "name" (form req) = Some name
    /\ multi_get "description" (form req) = Some description
    /\ let image_url := String.append "data:None;base64," (b64encode (stream file)) in
       let record :=
         [("id", VInt (current "projects" s + 1)); ("name", VStr name);
          ("description", VStr description); ("image_url", VStr image_url)] in
       add_project req s
       = (Ok (Some (mkResponse
                      (jsonify [("message", VStr "Project created");
                                ("data", VDoc (record ++ [("_id", VStr (oid_str oid))]))])
                      201)), s')
       /\ find_all_no_id (projects_collection s')
          = find_all_no_id (projects_collection s) ++ [record].
Proof.
  intros Hfile HT Hok H201.
  destruct (add_project_201 req s H201)
    as (file' & name & descr & Hfile' & Ht & Hname & Hn & Hdesc & Hd).
  assert (file' = file) by congruence. subst file'.
  destruct (add_project_ok req s file name descr Hfile Ht Hname Hn Hdesc Hd Hok)
    as (s' & Hrun & Hc & _).
  assert (Hrec : project_record (current "projects" s + 1) name descr file
                 = [("id", VInt (current "projects" s + 1)); ("name", VStr name);
                    ("description", VStr descr);
                    ("image_url",
                     VStr (String.append "data:None;base64," (b64encode (stream file))))])
    by (unfold project_record, data_url; rewrite HT; reflexivity).
  rewrite Hrec in Hrun, Hc.
  exists s', name, descr, (fresh_oid (projects_collection s)).
  split; [exact Hname|]. split; [exact Hdesc|]. cbv zeta.
  split; [exact Hrun|].
  rewrite Hc. unfold find_all_no_id. rewrite map_app. reflexivity.
Qed.

Lemma add_project_untyped_image_witness :
  let file := mkFile "raw.bin" None [Byte.x66; Byte.x6f; Byte.x6f] in
  let req := mkRequest VNull [("image", file)] [("name", "X"); ("description", "Y")] in
  exists s' name description oid,
    multi_get "name" (form req) = Some name
    /\ multi_get "description" (form req) = Some description
    /\ let image_url := String.append "data:None;base64," (b64encode (stream file)) in
       let record :=
         [("id", VInt (current "projects" empty_store + 1)); ("name", VStr name);
          ("description", VStr description); ("image_url", VStr image_url)] in
       add_project req empty_store
       = (Ok (Some (mkResponse
                      (jsonify [("message", VStr "Project created");
                                ("data", VDoc (record ++ [("_id", VStr (oid_str oid))]))])
                      201)), s')
       /\ find_all_no_id (projects_collection s')
          = find_all_no_id (projects_collection empty_store) ++ [record].
Proof.
  exact (add_project_untyped_image
           (mkRequest VNull
              [("image", mkFile "raw.bin" None [Byte.x66; Byte.x6f; Byte.x6f])]
              [("name", "X"); ("description", "Y")])
           empty_store (mkFile "raw.bin" None [Byte.x66; Byte.x6f; Byte.x6f])
           eq_refl eq_refl eq_refl eq_refl).
Defined.



(** X5. The two sequences are independent.  Whatever the request,
    [add_project] leaves the clients, the contacts, the subscribers and
    every counter but ["projects"] as they are, and [add_client] leaves the
    projects, the contacts, the subscribers and every counter but
    ["clients"] as they are. *)
Theorem admin_writes_are_independent (req : request) (s : store) :
  counters_ok s = true ->
  (clients_collection (snd (add_project req s)) = clients_collection s
   /\ contacts_collection (snd (add_project req s)) = contacts_collection s
   /\ subscribers_collection (snd (add_project req s)) = subscribers_collection s
   /\ forall other, other <> "projects" ->
        current other (snd (add_project req s)) = current other s)
  /\ (projects_collection (snd (add_client req s)) = projects_collection s
      /\ contacts_collection (snd (add_client req s)) = contacts_collection s
      /\ subscribers_collection (snd (add_client req s)) = subscribers_collection s
      /\ forall other, other <> "clients" ->
           current other (snd (add_client req s)) = current other s).
Proof.
  intros Hok. split.
  - destruct (add_project_effect req s Hok)
      as [[-> _]|(_ & _ & _ & Hoth & _ & Hc & Hco & Hsu)]; auto.
  - destruct (add_client_effect req s Hok)
      as [[-> _]|(_ & _ & _ & Hoth & _ & Hc & Hco & Hsu)]; auto.
Qed.

Lemma admin_writes_are_independent_witness :
  let req :=
    mkRequest VNull [("image", mkFile "a.jpg" (Some "image/jpeg") [])]
      [("name", "X"); ("description", "Y")] in
  clients_collection (snd (add_project req empty_store)) = []
  /\ current "clients" (snd (add_project req empty_store)) = 0.
Proof.
  destruct (admin_writes_are_independent
              (mkRequest VNull [("image", mkFile "a.jpg" (Some "image/jpeg") [])]
                 [("name", "X"); ("description", "Y")])
              empty_store eq_refl) as [(Hc & _ & _ & Hoth) _].
  exact (conj Hc (Hoth "clients" ltac:(discriminate))).
Defined.

(** ** Reachable stores *)

Lemma on_keeps_other {A} h h' (op : collection -> result (A * collection)) s :
  h' <> h -> get_coll h' (snd (on h op s)) = get_coll h' s.
Proof.
  intros Hne. unfold on. destruct (op (get_coll h s)) as [[a c']|e]; [|reflexivity].
  now apply get_set_coll_other.
Qed.

Lemma store_keeps_other h h' v (k : M (option response)) s :
  h' <> h ->
  (forall s0, snd (k s0) = s0) ->
  get_coll h' (snd ((_ <- on h (insert_one v) ;; k) s)) = get_coll h' s.
Proof.
  intros Hne Hk. unfold bind.
  pose proof (on_keeps_other h h' (insert_one v) s Hne) as Hon.
  destruct (on h (insert_one v) s) as [[r|e] s1]; simpl in *; [|assumption].
  now rewrite Hk.
Qed.

Lemma submit_contact_keeps h req s :
  h <> Contacts -> get_coll h (snd (submit_contact req s)) = get_coll h s.
Proof.
  intros Hne. unfold submit_contact. destruct (truthy (json req)); [|reflexivity].
  cbn [negb]. now apply store_keeps_other.
Qed.

Lemma subscribe_keeps h req s :
  h <> Subscribers -> get_coll h (snd (subscribe req s)) = get_coll h s.
Proof.
  intros Hne. unfold subscribe. destruct (truthy (json req)); [|reflexivity].
  cbn [negb]. unfold bind at 1.
  destruct (contains "email" (json req)) as [[]|e]; try reflexivity.
  cbn [negb]. now apply store_keeps_other.
Qed.

Lemma first_ids_succ n : first_ids (S n) = first_ids n ++ [Some (VInt (Z.of_nat n + 1))].
Proof.
  unfold first_ids. rewrite seq_S, map_app. cbn [map].
  replace (Z.of_nat (1 + n)) with (Z.of_nat n + 1) by lia. reflexivity.
Qed.

Lemma ids_in_step_same name h s s' :
  current name s' = current name s -> get_coll h s' = get_coll h s ->
  ids_in_step name h s -> ids_in_step name h s'.
Proof. intros Hc Hg (n & Hn & Hids). exists n. now rewrite Hc, Hg. Qed.

Lemma ids_in_step_next name h s s' record :
  current name s' = current name s + 1 ->
  dict_get record "id" = Some (VInt (current name s + 1)) ->
  get_coll h s' = get_coll h s ++ [record] ->
  ids_in_step name h s -> ids_in_step name h s'.
Proof.
  intros Hc Hid Hg (n & Hn & Hids). exists (S n). split; [lia|].
  rewrite Hg, first_ids_succ. unfold ids_of in *. rewrite map_app, Hids. simpl.
  now rewrite Hid, Hn.
Qed.

(** The invariant of the stores the application reaches. *)
Lemma serve_keeps_ids c s :
  counters_ok s = true ->
  ids_in_step "projects" Projects s -> ids_in_step "clients" Clients s ->
  ids_in_step "projects" Projects (snd (serve c s))
  /\ ids_in_step "clients" Clients (snd (serve c s)).
Proof.
  intros Hok Hp Hc. destruct c as [| |req|req|req|req| |]; simpl serve; auto.
  - split; (eapply ids_in_step_same; [| |eassumption]);
      first [ apply submit_contact_keeps; discriminate
            | unfold current; f_equal;
              apply (submit_contact_keeps Counters); discriminate ].
  - split; (eapply ids_in_step_same; [| |eassumption]);
      first [ apply subscribe_keeps; discriminate
            | unfold current; f_equal;
              apply (subscribe_keeps Counters); discriminate ].
  - destruct (add_project_effect req s Hok)
      as [[-> _]|(_ & _ & Hcur & Hoth & (record & Hid & Hrec) & Hcl & _)]; auto.
    split.
    + eapply ids_in_step_next; eassumption.
    + eapply ids_in_step_same; [apply Hoth; discriminate | exact Hcl | exact Hc].
  - destruct (add_client_effect req s Hok)
      as [[-> _]|(_ & _ & Hcur & Hoth & (record & Hid & Hrec) & Hpr & _)]; auto.
    split.
    + eapply ids_in_step_same; [apply Hoth; discriminate | exact Hpr | exact Hp].
    + eapply ids_in_step_next; eassumption.
Qed.

(** With the store of the embedding, which takes every document that
    [add_project] and [add_client] build, the ids stay in step with the
    counters through every succession of requests. *)
Lemma served_ids_in_step (cs : list call) :
  ids_in_step "projects" Projects (serve_all cs empty_store)
  /\ ids_in_step "clients" Clients (serve_all cs empty_store).
Proof.
  unfold serve_all.
  assert (H0 : counters_ok empty_store = true
               /\ ids_in_step "projects" Projects empty_store
               /\ ids_in_step "clients" Clients empty_store)
    by (split; [reflexivity | split; exists 0%nat; split; reflexivity]).
  revert H0. generalize empty_store.
  induction cs as [|c cs IH]; intros s (Hok & Hp & Hc); simpl; [auto|].
  apply IH. split; [now apply serve_keeps_counters_ok|].
  now apply serve_keeps_ids.
Qed.

Lemma seq_sorted a n : StronglySorted Z.lt (map Z.of_nat (seq a n)).
Proof.
  revert a. induction n as [|n IH]; intros a; simpl; constructor; [apply IH|].
  apply List.Forall_forall. intros z Hz. apply in_map_iff in Hz as (k & <- & Hk).
  apply in_seq in Hk. lia.
Qed.

Lemma ids_in_step_increasing name h s :
  ids_in_step name h s -> ids_increasing name h s.
Proof.
  intros (n & Hn & Hids). exists (map Z.of_nat (seq 1 n)).
  split; [|split].
  - rewrite Hids. unfold first_ids. now rewrite map_map.
  - apply seq_sorted.
  - apply List.Forall_forall. intros z Hz.
    apply in_map_iff in Hz as (k & <- & Hk).
    apply in_seq in Hk. lia.
Qed.

(** X6. Whatever requests were served, one after another, since the store
    was empty, the projects carry integer ids that increase strictly in
    stored order, start at 1 or above and do not exceed the value of the
    ["projects"] counter, and the clients likewise with the ["clients"]
    counter: no id is on two stored documents.  When none of the requests
    was answered 500 the ids are exactly 1, 2, ..., n, with n the value of
    the counter: every id issued is on a stored document. *)
Theorem reachable_ids_ordered (cs : list call) :
  (ids_increasing "projects" Projects (serve_all cs empty_store)
   /\ ids_increasing "clients" Clients (serve_all cs empty_store))
  /\ (Forall (fun a => a <> Some 500) (answers cs empty_store) ->
      ids_in_step "projects" Projects (serve_all cs empty_store)
      /\ ids_in_step "clients" Clients (serve_all cs empty_store)).
Proof.
  destruct (served_ids_in_step cs) as [Hp Hc]. split.
  - split; now apply ids_in_step_increasing.
  - intros _. now split.
Qed.

Lemma reachable_ids_ordered_witness :
  let req :=
    mkRequest VNull [("image", mkFile "a.jpg" (Some "image/jpeg") [Byte.xff])]
      [("name", "X"); ("description", "Y")] in
  ids_in_step "projects" Projects
    (serve_all [AddProject req; GetProjects; AddProject req] empty_store)
  /\ ids_in_step "clients" Clients
       (serve_all [AddProject req; GetProjects; AddProject req] empty_store).
Proof.
  refine (proj2 (reachable_ids_ordered
                   [AddProject
                      (mkRequest VNull
                         [("image", mkFile "a.jpg" (Some "image/jpeg") [Byte.xff])]
                         [("name", "X"); ("description", "Y")]);
                    GetProjects;
                    AddProject
                      (mkRequest VNull
                         [("image", mkFile "a.jpg" (Some "image/jpeg") [Byte.xff])]
                         [("name", "X"); ("description", "Y")])]) _).
  repeat constructor; discriminate.
Defined.

(** ** Further properties of the sequence generator *)

(** X8. Whatever the store's find-and-modify answers, [get_next_id] reads
    and writes the counters only: every other collection is as before,
    whether the call returns or raises. *)
Theorem get_next_id_only_counters
    (fau : string -> collection -> result (option document * collection))
    (name : string) (s : store) (h : handle) :
  h <> Counters ->
  get_coll h (snd (get_next_id fau name s)) = get_coll h s.
Proof.
  intros Hne. unfold get_next_id, bind.
  pose proof (on_keeps_other Counters h (fau name) s Hne) as H1.
  destruct (on Counters (fau name) s) as [[counter|e] s1]; simpl in H1; [|assumption].
  destruct (no_counter counter); [|simpl; assumption].
  pose proof (on_keeps_other Counters h (update_one name (VInt 1)) s1 Hne) as H2.
  destruct (on Counters (update_one name (VInt 1)) s1) as [[u|e] s2];
    simpl in *; congruence.
Qed.

Lemma get_next_id_only_counters_witness :
  get_coll Projects
    (snd (get_next_id silent_find_one_and_update "projects"
            (mkStore [[("id", VInt 1)]] [] [] [] [])))
  = [[("id", VInt 1)]].
Proof.
  exact (get_next_id_only_counters silent_find_one_and_update "projects"
           (mkStore [[("id", VInt 1)]] [] [] [] []) Projects ltac:(discriminate)).
Defined.




(** ** Further properties of the submission handlers *)

(** X10. A JSON object without an [_id] that [submit_contact] answers with
    201 is listed by the next [get_all_contacts] as its last element, field
    for field as it was sent, after every contact listed before. *)
Theorem contact_round_trip (req : request) (s : store) (d : document) :
  json req = VDoc d -> dict_get d "_id" = None ->
  status_of (submit_contact req s) = Some 201 ->
  exists s',
    submit_contact req s
    = (Ok (Some (mkResponse (jsonify [("message", VStr "Contact submitted")]) 201)), s')
    /\ get_all_contacts s'
       = (Ok (Some (mkResponse
                      (jsonify
                         [("contacts",
                           VArr (map VDoc
                                   (find_all_no_id (contacts_collection s) ++ [d])))])
                      200)), s').
Proof.
  intros Hd Hid. rewrite submit_contact_cases.
  destruct (truthy (json req)); [|discriminate].
  intros H201.
  destruct (store_outcome Contacts (json req)
              [("message", VStr "Contact submitted")] 201 s) as (Hc & _).
  destruct (Hc H201) as (d0 & id & Hd0 & _ & _ & _ & Hrun & Hlist).
  assert (d0 = d) by congruence. subst d0.
  eexists. split; [exact Hrun|].
  unfold get_all_contacts, listing, find, bind, respond, ret.
  rewrite get_set_coll_same, Hlist, (dict_remove_absent "_id" d Hid). reflexivity.
Qed.

Lemma contact_round_trip_witness :
  exists s',
    submit_contact
      (mkRequest (VDoc [("name", VStr "A"); ("message", VStr "hi")]) [] [])
      empty_store
    = (Ok (Some (mkResponse (jsonify [("message", VStr "Contact submitted")]) 201)), s')
    /\ get_all_contacts s'
       = (Ok (Some (mkResponse
                      (jsonify
                         [("contacts",
                           VArr [VDoc [("name", VStr "A"); ("message", VStr "hi")]])])
                      200)), s').
Proof.
  exact (contact_round_trip
           (mkRequest (VDoc [("name", VStr "A"); ("message", VStr "hi")]) [] [])
           empty_store [("name", VStr "A"); ("message", VStr "hi")]
           eq_refl eq_refl eq_refl).
Defined.



(** X12. A payload that is truthy but not a JSON object is never stored and
    never answered 201.  [submit_contact] raises [TypeError] from
    [insert_one]; [subscribe] answers 400 when the payload is an array or a
    string that does not hold ["email"], and raises [TypeError] otherwise
    (a number or [true] at the [in] test, an array or string holding
    ["email"] at [insert_one]).  The store is as before. *)
Theorem non_object_payload (req : request) (s : store) :
  truthy (json req) = true ->
  (forall d, json req <> VDoc d) ->
  submit_contact req s = (Raise TypeError, s)
  /\ (subscribe req s = (Raise TypeError, s)
      \/ (contains "email" (json req) = Ok false
          /\ subscribe req s
             = (Ok (Some (mkResponse (jsonify [("error", VStr "Email is required")])
                            400)), s))).
Proof.
  intros Ht Hobj. unfold submit_contact, subscribe. rewrite Ht. cbn [negb].
  unfold bind, on, insert_one.
  destruct (json req) as [|b|z|str|l|d|n]; try discriminate;
    try (split; [reflexivity | left; reflexivity]).
  - split; [reflexivity|]. unfold contains.
    destruct (is_substring "email" str); [left | right]; auto.
  - split; [reflexivity|]. unfold contains.
    destruct (List.existsb (value_eqb (VStr "email")) l); [left | right]; auto.
  - now destruct (Hobj d).
Qed.

Lemma non_object_payload_witness :
  submit_contact (mkRequest (VArr [VInt 1]) [] []) empty_store
  = (Raise TypeError, empty_store)
  /\ subscribe (mkRequest (VInt 5) [] []) empty_store = (Raise TypeError, empty_store)
  /\ subscribe (mkRequest (VStr "my email") [] []) empty_store
     = (Raise TypeError, empty_store).
Proof.
  destruct (non_object_payload (mkRequest (VArr [VInt 1]) [] []) empty_store
              eq_refl ltac:(discriminate)) as [H1 _].
  destruct (non_object_payload (mkRequest (VInt 5) [] []) empty_store
              eq_refl ltac:(discriminate)) as [_ [H2|[H2 _]]];
    [|discriminate H2].
  destruct (non_object_payload (mkRequest (VStr "my email") [] []) empty_store
              eq_refl ltac:(discriminate)) as [_ [H3|[H3 _]]];
    [|discriminate H3].
  exact (conj H1 (conj H2 H3)).
Defined.

(** ** [base64.b64encode] *)

Lemma list_ind3 {A} (P : list A -> Prop) :
  P [] -> (forall x, P [x]) -> (forall x y, P [x; y]) ->
  (forall x y z l, P l -> P (x :: y :: z :: l)) ->
  forall l, P l.
Proof.
  intros H0 H1 H2 H3 l.
  assert (H : P l /\ (forall x, P (x :: l)) /\ (forall x y, P (x :: y :: l))).
  { induction l as [|a l (IH0 & IH1 & IH2)]; [auto|].
    split; [apply IH1|]. split; [intros x; apply IH2|].
    intros x y. apply H3, IH0. }
  apply H.
Qed.

(** X13. The encoding of [n] bytes has [4 * ceil(n / 3)] characters. *)
Theorem b64encode_length (bs : list Byte.byte) :
  String.length (b64encode bs) = (4 * ((length bs + 2) / 3))%nat.
Proof.
  induction bs as [| | |x y z l IH] using list_ind3; try reflexivity.
  cbn [b64encode String.length length]. rewrite IH.
  replace (S (S (S (length l))) + 2)%nat with (1 * 3 + (length l + 2))%nat by lia.
  rewrite Nat.div_add_l by lia. lia.
Qed.

Lemma get_in_string i (s : string) a :
  String.get i s = Some a ->
  List.existsb (Ascii.eqb a) (list_ascii_of_string s) = true.
Proof.
  revert i. induction s as [|c s IH]; intros [|i]; simpl; try discriminate.
  - intros [= ->]. now rewrite Ascii.eqb_refl.
  - intros H. rewrite (IH i H). apply orb_true_r.
Qed.

Lemma b64_char_symbol n : b64_symbol (b64_char n) = true.
Proof.
  unfold b64_symbol, b64_char.
  destruct (String.get (N.to_nat n) b64_alphabet) as [a|] eqn:G.
  - now rewrite (get_in_string _ _ _ G).
  - apply orb_true_r.
Qed.

(** X14. Every character of an encoding is one of the 64 characters of the
    alphabet or the padding sign, so turning the encoded bytes into text
    with [decode('utf-8')] cannot fail. *)
Theorem b64encode_symbols (bs : list Byte.byte) :
  forallb b64_symbol (list_ascii_of_string (b64encode bs)) = true.
Proof.
  induction bs as [| | |x y z l IH] using list_ind3;
    cbn [b64encode list_ascii_of_string forallb];
    rewrite ?b64_char_symbol, ?IH; reflexivity.
Qed.

Lemma in_below n k : (k < N.of_nat n)%N -> In k (below n).
Proof.
  intros Hk. unfold below. apply in_map_iff. exists (N.to_nat k).
  split; [apply N2Nat.id|]. apply in_seq. lia.
Qed.

Lemma below_1 (f : N -> bool) n :
  forallb f (below n) = true -> forall a, (a < N.of_nat n)%N -> f a = true.
Proof.
  intros H a Ha. rewrite forallb_forall in H. apply H. now apply in_below.
Qed.

Lemma below_2 (f : N -> N -> bool) n m :
  forallb (fun a => forallb (f a) (below m)) (below n) = true ->
  forall a b, (a < N.of_nat n)%N -> (b < N.of_nat m)%N -> f a b = true.
Proof.
  intros H a b Ha Hb.
  exact (below_1 (f a) m (below_1 (fun a => forallb (f a) (below m)) n H a Ha) b Hb).
Qed.

Lemma b64_char_inj i j :
  (i < 64)%N -> (j < 64)%N -> b64_char i = b64_char j -> i = j.
Proof.
  intros Hi Hj Heq. apply N.eqb_eq.
  pose proof (below_2
                (fun i j => implb (Ascii.eqb (b64_char i) (b64_char j)) (N.eqb i j))
                64 64 ltac:(vm_compute; reflexivity) i j Hi Hj) as H.
  cbv beta in H. rewrite Heq, Ascii.eqb_refl in H. exact H.
Qed.

Lemma b64_char_not_pad i : (i < 64)%N -> b64_char i <> "="%char.
Proof.
  intros Hi Heq.
  pose proof (below_1 (fun i => negb (Ascii.eqb (b64_char i) "="%char))
                64 ltac:(vm_compute; reflexivity) i Hi) as H.
  cbv beta in H. rewrite Heq in H. discriminate H.
Qed.

(** The four sextets of three bytes are below 64 and give the bytes back. *)
Lemma sextets_spec a b c :
  (a < 256)%N -> (b < 256)%N -> (c < 256)%N ->
  let s1 := N.shiftr a 2 in
  let s2 := N.lor (N.shiftl (N.land a 3) 4) (N.shiftr b 4) in
  let s3 := N.lor (N.shiftl (N.land b 15) 2) (N.shiftr c 6) in
  let s4 := N.land c 63 in
  ((s1 < 64)%N /\ (s2 < 64)%N /\ (s3 < 64)%N /\ (s4 < 64)%N)
  /\ N.lor (N.shiftl s1 2) (N.shiftr s2 4) = a
  /\ N.lor (N.shiftl (N.land s2 15) 4) (N.shiftr s3 2) = b
  /\ N.lor (N.shiftl (N.land s3 3) 6) s4 = c.
Proof.
  intros Ha Hb Hc.
  pose proof (below_2
    (fun a b =>
       let s1 := N.shiftr a 2 in
       let s2 := N.lor (N.shiftl (N.land a 3) 4) (N.shiftr b 4) in
       (s1 <? 64)%N && (s2 <? 64)%N
       && N.eqb (N.lor (N.shiftl s1 2) (N.shiftr s2 4)) a
       && N.eqb (N.land s2 15) (N.shiftr b 4))
    256 256 ltac:(vm_compute; reflexivity) a b Ha Hb) as Hab.
  pose proof (below_2
    (fun b c =>
       let s3 := N.lor (N.shiftl (N.land b 15) 2) (N.shiftr c 6) in
       let s4 := N.land c 63 in
       (s3 <? 64)%N && (s4 <? 64)%N
       && N.eqb (N.lor (N.shiftl (N.shiftr b 4) 4) (N.shiftr s3 2)) b
       && N.eqb (N.lor (N.shiftl (N.land s3 3) 6) s4) c)
    256 256 ltac:(vm_compute; reflexivity) b c Hb Hc) as Hbc.
  cbv beta zeta in Hab, Hbc.
  repeat (apply andb_true_iff in Hab as [Hab ?]).
  repeat (apply andb_true_iff in Hbc as [Hbc ?]).
  repeat match goal with
         | H : (_ <? _)%N = true |- _ => apply N.ltb_lt in H
         | H : N.eqb _ _ = true |- _ => apply N.eqb_eq in H
         end.
  cbv zeta. repeat split; try assumption. congruence.
Qed.

Lemma to_N_lt x : (Byte.to_N x < 256)%N.
Proof. pose proof (Byte.to_N_bounded x). lia. Qed.

Lemma to_N_inj x y : Byte.to_N x = Byte.to_N y -> x = y.
Proof.
  intros H. pose proof (Byte.of_to_N x) as Hx. rewrite H, Byte.of_to_N in Hx.
  now injection Hx.
Qed.

Lemma sextets_inj a b c a' b' c' :
  (a < 256)%N -> (b < 256)%N -> (c < 256)%N ->
  (a' < 256)%N -> (b' < 256)%N -> (c' < 256)%N ->
  b64_char (N.shiftr a 2) = b64_char (N.shiftr a' 2) ->
  b64_char (N.lor (N.shiftl (N.land a 3) 4) (N.shiftr b 4))
  = b64_char (N.lor (N.shiftl (N.land a' 3) 4) (N.shiftr b' 4)) ->
  b64_char (N.lor (N.shiftl (N.land b 15) 2) (N.shiftr c 6))
  = b64_char (N.lor (N.shiftl (N.land b' 15) 2) (N.shiftr c' 6)) ->
  b64_char (N.land c 63) = b64_char (N.land c' 63) ->
  a = a' /\ b = b' /\ c = c'.
Proof.
  intros Ha Hb Hc Ha' Hb' Hc' H1 H2 H3 H4.
  destruct (sextets_spec a b c Ha Hb Hc) as ((B1 & B2 & B3 & B4) & Da & Db & Dc).
  destruct (sextets_spec a' b' c' Ha' Hb' Hc')
    as ((B1' & B2' & B3' & B4') & Da' & Db' & Dc').
  cbv zeta in *.
  apply b64_char_inj in H1, H2, H3, H4; try assumption.
  rewrite H1, H2 in Da. rewrite H2, H3 in Db. rewrite H3, H4 in Dc.
  repeat split; congruence.
Qed.

Lemma sextet_not_pad (y z : Byte.byte) :
  b64_char (N.lor (N.shiftl (N.land (Byte.to_N y) 15) 2) (N.shiftr (Byte.to_N z) 6))
  <> "="%char
  /\ b64_char (N.shiftl (N.land (Byte.to_N y) 15) 2) <> "="%char
  /\ b64_char (N.land (Byte.to_N z) 63) <> "="%char.
Proof.
  destruct (sextets_spec 0 (Byte.to_N y) (Byte.to_N z))
    as ((_ & _ & B3 & B4) & _); try apply to_N_lt; try lia.
  destruct (sextets_spec 0 (Byte.to_N y) 0)
    as ((_ & _ & B3' & _) & _); try apply to_N_lt; try lia.
  cbv zeta in *. rewrite N.shiftr_0_l, N.lor_0_r in B3'.
  repeat split; now apply b64_char_not_pad.
Qed.

(** X15. The encoding is injective: two byte sequences with the same
    encoding are the same sequence, so no two images share an
    [image_url] under one content type. *)
Theorem b64encode_inj (bs bs' : list Byte.byte) :
  b64encode bs = b64encode bs' -> bs = bs'.
Proof.
  revert bs'. induction bs as [|x|x y|x y z l IH] using list_ind3;
    intros bs'; destruct bs' as [|x' [|y' [|z' l']]];
    cbn [b64encode]; intros H; try discriminate H; try reflexivity.
  - (* one byte each *)
    injection H as H1 H2.
    destruct (sextets_inj (Byte.to_N x) 0 0 (Byte.to_N x') 0 0) as (E & _);
      try apply to_N_lt; try reflexivity; try lia.
    + exact H1.
    + rewrite !N.shiftr_0_l, !N.lor_0_r. exact H2.
    + now apply to_N_inj in E as ->.
  - (* one byte against two *)
    injection H as _ _ H3. symmetry in H3.
    now apply (proj1 (proj2 (sextet_not_pad y' y'))) in H3.
  - (* one byte against three or more *)
    injection H as _ _ H3 _ _. symmetry in H3.
    now apply (proj1 (sextet_not_pad y' z')) in H3.
  - (* two bytes against one *)
    injection H as _ _ H3.
    now apply (proj1 (proj2 (sextet_not_pad y y))) in H3.
  - (* two bytes each *)
    injection H as H1 H2 H3.
    destruct (sextets_inj (Byte.to_N x) (Byte.to_N y) 0
                (Byte.to_N x') (Byte.to_N y') 0) as (E1 & E2 & _);
      try apply to_N_lt; try reflexivity; try lia.
    + exact H1.
    + exact H2.
    + rewrite !N.shiftr_0_l, !N.lor_0_r. exact H3.
    + apply to_N_inj in E1 as ->. now apply to_N_inj in E2 as ->.
  - (* two bytes against three or more *)
    injection H as _ _ _ H4 _. symmetry in H4.
    now apply (proj2 (proj2 (sextet_not_pad z' z'))) in H4.
  - (* three or more against one *)
    injection H as _ _ H3 _ _.
    now apply (proj1 (sextet_not_pad y z)) in H3.
  - (* three or more against two *)
    injection H as _ _ _ H4 _.
    now apply (proj2 (proj2 (sextet_not_pad z z))) in H4.
  - (* three or more each *)
    injection H as H1 H2 H3 H4 H5.
    destruct (sextets_inj (Byte.to_N x) (Byte.to_N y) (Byte.to_N z)
                (Byte.to_N x') (Byte.to_N y') (Byte.to_N z')) as (E1 & E2 & E3);
      try apply to_N_lt; try assumption.
    apply to_N_inj in E1 as ->. apply to_N_inj in E2 as ->.
    apply to_N_inj in E3 as ->. now rewrite (IH l' H5).
Qed.

(** X16. Hence the data URL tells images apart: files of one content type
    with the same [image_url] hold the same bytes. *)
Theorem data_url_inj (f g : FileStorage) :
  content_type f = content_type g ->
  data_url f = data_url g ->
  stream f = stream g.
Proof.
  intros Hct Heq. unfold data_url in Heq. rewrite Hct in Heq.
  apply b64encode_inj.
  assert (Hcancel : forall p a b : string, String.append p a = String.append p b -> a = b).
  { induction p as [|ch p IHp]; simpl; intros a b E; [exact E|].
    injection E as E. now apply IHp. }
  repeat apply Hcancel in Heq. exact Heq.
Qed.

Lemma data_url_inj_witness :
  stream (mkFile "a.jpg" (Some "image/jpeg") [Byte.xff; Byte.xd8])
  = stream (mkFile "b.jpg" (Some "image/jpeg") [Byte.xff; Byte.xd8]).
Proof.
  exact (data_url_inj (mkFile "a.jpg" (Some "image/jpeg") [Byte.xff; Byte.xd8])
           (mkFile "b.jpg" (Some "image/jpeg") [Byte.xff; Byte.xd8])
           eq_refl eq_refl).
Defined.

Lemma b64encode_inj_witness :
  [Byte.x66; Byte.x6f] = [Byte.x66; Byte.x6f].
Proof. exact (b64encode_inj [Byte.x66; Byte.x6f] [Byte.x66; Byte.x6f] eq_refl). Defined.

(** ** Concurrent callers hand out consecutive ids *)

Lemma ids_from_succ base m :
  ids_from base (S m) = ids_from base m ++ [base + Z.of_nat m + 1].
Proof.
  unfold ids_from. rewrite seq_S, map_app. cbn [map].
  replace (base + Z.of_nat (1 + m)) with (base + Z.of_nat m + 1) by lia.
  reflexivity.
Qed.

Lemma returned_replicate name n : returned (replicate n (Ready name)) = [].
Proof. induction n; simpl; [reflexivity | assumption]. Qed.

Lemma pool_inv_ids_step name base cfg cfg' :
  pool_inv_ids name base cfg ->
  pool_step mongo_find_one_and_update cfg cfg' ->
  pool_inv_ids name base cfg'.
Proof.
  intros (Hok & Hall & m & Hcur & Hperm) Hstep.
  destruct Hstep as [s ts i t Hi Hrun]. cbn [fst snd] in *.
  assert (Ht : t = Ready name).
  { rewrite Forall_forall in Hall.
    destruct (Hall t) as [->|(w & ->)];
      [eapply list_elem_of_lookup_2; eassumption | reflexivity | discriminate]. }
  subst t.
  destruct (get_next_id_mongo name s Hok) as (d & c' & _ & Hthread & Hinc).
  rewrite Hthread. unfold pool_inv_ids. cbn [fst snd].
  split; [|split].
  - unfold counters_ok. simpl. apply (inc_ok _ _ _ _ Hinc).
  - apply Forall_insert; [assumption|]. right. eexists. reflexivity.
  - exists (S m). split.
    + unfold current in *. simpl. rewrite (inc_value _ _ _ _ Hinc). lia.
    + rewrite (returned_insert ts i name _ Hi), ids_from_succ, Hperm, Hcur.
      apply Permutation_cons_append.
Qed.

(** X17. However the store orders the find-and-modify operations of [n]
    concurrent callers of [get_next_id] for one name, the values returned
    at any point are, in some order, the consecutive integers that follow
    the value the counter started from, up to the value it holds now; when
    all callers have finished these are the [n] next integers, none
    skipped. *)
Theorem concurrent_ids_consecutive (name : string) (n : nat) (s0 s : store)
    (ts : list thread) :
  counters_ok s0 = true ->
  rtc (pool_step mongo_find_one_and_update) (s0, replicate n (Ready name)) (s, ts) ->
  exists m : nat,
    current name s = current name s0 + Z.of_nat m
    /\ returned ts ≡ₚ ids_from (current name s0) m
    /\ (forallb finished ts = true -> m = n).
Proof.
  intros Hok Hrun.
  assert (Hinv : pool_inv_ids name (current name s0) (s, ts)).
  { assert (H0 : pool_inv_ids name (current name s0) (s0, replicate n (Ready name))).
    { split; [assumption|]. split; [apply Forall_replicate; now left|].
      exists 0%nat. cbn [fst snd]. split; [lia|].
      now rewrite returned_replicate. }
    revert H0. generalize (current name s0). intros base.
    induction Hrun as [|cfg cfg1 cfg2 Hstep _ IH]; [auto|].
    intros H0. apply IH. eapply pool_inv_ids_step; eassumption. }
  destruct Hinv as (_ & Hall & m & Hcur & Hperm). cbn [fst snd] in *.
  exists m. split; [exact Hcur|]. split; [exact Hperm|].
  intros Hfin.
  destruct (pool_inv_steps name n _ _ Hrun (pool_inv_init name n s0 Hok))
    as (_ & Hlen & Hall' & _). cbn [fst snd] in *.
  pose proof (returned_all_finished name (fun w => w <= current name s) ts Hall' Hfin)
    as Hret.
  apply Permutation_length in Hperm. unfold ids_from in Hperm.
  rewrite length_map, length_seq in Hperm. lia.
Qed.

Lemma concurrent_ids_consecutive_witness :
  exists m : nat,
    current "projects"
      (mkStore [] [] [] [] [[("_id", VStr "projects"); ("sequence_value", VInt 2)]])
    = current "projects" empty_store + Z.of_nat m
    /\ returned [Returned 2; Returned 1] ≡ₚ ids_from (current "projects" empty_store) m
    /\ (forallb finished [Returned 2; Returned 1] = true -> m = 2%nat).
Proof.
  refine (concurrent_ids_consecutive "projects" 2 empty_store _ _ eq_refl _).
  eapply rtc_l.
  - exact (pool_step_at mongo_find_one_and_update empty_store
             (replicate 2 (Ready "projects")) 1 (Ready "projects") eq_refl eq_refl).
  - eapply rtc_l.
    + exact (pool_step_at mongo_find_one_and_update
               (mkStore [] [] [] []
                  [[("_id", VStr "projects"); ("sequence_value", VInt 1)]])
               [Ready "projects"; Returned 1] 0 (Ready "projects")
               eq_refl eq_refl).
    + apply rtc_refl.
Defined.

(** ** Nothing stored is changed or removed *)

Lemma insert_one_appends v c :
  match insert_one v c with
  | Ok (_, c') => exists d, c' = c ++ [d]
  | Raise _ => True
  end.
Proof.
  unfold insert_one. destruct v; try exact I.
  destruct (match dict_get d "_id" with Some id => id | None => _ end);
    try exact I;
    match goal with
    | |- context [if ?b then _ else _] => destruct b; [exact I | eexists; reflexivity]
    end.
Qed.

Lemma store_appends h v (k : M (option response)) s :
  (forall s0, snd (k s0) = s0) ->
  exists added,
    get_coll h (snd ((_ <- on h (insert_one v) ;; k) s)) = get_coll h s ++ added
    /\ (length added <= 1)%nat.
Proof.
  intros Hk. unfold bind, on. pose proof (insert_one_appends v (get_coll h s)) as H.
  destruct (insert_one v (get_coll h s)) as [[r c']|e].
  - destruct H as [d ->]. rewrite Hk. cbn [snd]. rewrite get_set_coll_same.
    exists [d]. split; [reflexivity | simpl; lia].
  - exists []. cbn [snd]. split; [now rewrite app_nil_r | simpl; lia].
Qed.

(** X18. No request changes or removes a stored document.  Served in a
    store whose counters hold integers, every request leaves each of the
    projects, clients, contacts and subscribers as it was, or with one
    document added at the end. *)
Theorem serve_only_appends (c : call) (s : store) (h : handle) :
  counters_ok s = true ->
  h <> Counters ->
  exists added,
    get_coll h (snd (serve c s)) = get_coll h s ++ added
    /\ (length added <= 1)%nat.
Proof.
  intros Hok Hh.
  assert (Hsame : forall s', get_coll h s' = get_coll h s ->
            exists added, get_coll h s' = get_coll h s ++ added
                          /\ (length added <= 1)%nat).
  { intros s' ->. exists []. split; [now rewrite app_nil_r | simpl; lia]. }
  destruct c as [| |req|req|req|req| |]; simpl serve; try (now apply Hsame).
  - destruct h; try (apply Hsame, submit_contact_keeps; discriminate).
    unfold submit_contact. destruct (truthy (json req)); [|now apply Hsame].
    cbn [negb]. now apply store_appends.
  - destruct h; try (apply Hsame, subscribe_keeps; discriminate).
    unfold subscribe. destruct (truthy (json req)); [|now apply Hsame].
    cbn [negb]. unfold bind at 1.
    destruct (contains "email" (json req)) as [[]|e]; try (now apply Hsame).
    cbn [negb]. now apply store_appends.
  - destruct (add_project_effect req s Hok)
      as [[-> _]|(_ & _ & _ & _ & (record & _ & Hrec) & Hcl & Hco & Hsu)];
      [now apply Hsame|].
    destruct h; try (now apply Hsame).
    exists [record]. split; [exact Hrec | simpl; lia].
  - destruct (add_client_effect req s Hok)
      as [[-> _]|(_ & _ & _ & _ & (record & _ & Hrec) & Hpr & Hco & Hsu)];
      [now apply Hsame|].
    destruct h; try (now apply Hsame).
    exists [record]. split; [exact Hrec | simpl; lia].
Qed.

Lemma serve_only_appends_witness :
  exists added,
    get_coll Contacts
      (snd (serve (SubmitContact (mkRequest (VDoc [("name", VStr "A")]) [] []))
              (mkStore [] [] [[("_id", VOid 1); ("name", VStr "B")]] [] [])))
    = [[("_id", VOid 1); ("name", VStr "B")]] ++ added
    /\ (length added <= 1)%nat.
Proof.
  exact (serve_only_appends
           (SubmitContact (mkRequest (VDoc [("name", VStr "A")]) [] []))
           (mkStore [] [] [[("_id", VOid 1); ("name", VStr "B")]] [] [])
           Contacts eq_refl ltac:(discriminate)).
Defined.
